(** * Content-AI front end: form normalisation and the streaming client

    A shallow embedding of
    - [frontend/src/forms/schema.ts]: the zod checks on [word_count] and
      [tone], [normalizeWordCount] and [normalizeTone];
    - [frontend/src/services/api.ts]: [generateContentStream], the
      EventSource handlers of the streaming client;
    together with a model of the response cache's request coalescing, which
    lives in the back end.

    Conventions.
    - A JavaScript string is a [string]: a sequence of code units below 256
      (the Latin-1 range), which is where all literals of the program live.
    - A JavaScript number that holds a word count is a [number]: a
      non-negative integer-valued double given by its integer value, with
      the rounding of the double format written out, or [Infinity], or
      [NaN].
    - Functions of the JavaScript runtime that the code calls keep their
      JavaScript names ([parseInt], [Math_floor_half], [Math_max], ...). *)

From Stdlib Require Import ZArith Lia Bool Ascii String List.
From Stdlib Require Import Floats.SpecFloat.
From stdpp Require Import gmap strings list.

Local Open Scope string_scope.
Local Open Scope list_scope.
Local Open Scope Z_scope.

#[local] Set Warnings "-register-all".

(** ** JavaScript numbers for word counts *)

Module Number.

Inductive number : Type :=
| Fin (z : Z)      (* a double whose value is the integer [z] *)
| Infinity
| NaN.

(** Doubles carry a 53-bit significand and overflow at [2^1024]. *)
Definition prec : Z := 53.
Definition emax : Z := 1024.

(** Nearest double to a non-negative integer, ties to even, with an
    unbounded exponent: below [2^53] every integer is a double; above, the
    low [e] bits are rounded away. *)
Definition round_nearest_even (z : Z) : Z :=
  if z <? 2 ^ prec then z
  else
    let e := Z.log2 z - (prec - 1) in
    let q := Z.shiftr z e in
    let r := Z.land z (Z.ones e) in
    let half := 2 ^ (e - 1) in
    let q' :=
      if r <? half then q
      else if half <? r then q + 1
      else if Z.even q then q else q + 1 in
    Z.shiftl q' e.

(** The Number value of a non-negative mathematical integer. *)
Definition of_integer (z : Z) : number :=
  let m := round_nearest_even z in
  if m <? 2 ^ emax then Fin m else Infinity.

(** [x + y] *)
Definition add (x y : number) : number :=
  match x, y with
  | NaN, _ | _, NaN => NaN
  | Infinity, _ | _, Infinity => Infinity
  | Fin a, Fin b => of_integer (a + b)
  end.

(** [x < y] and [x > y]; every comparison with [NaN] is false. *)
Definition lt (x y : number) : bool :=
  match x, y with
  | NaN, _ | _, NaN => false
  | Infinity, _ => false
  | Fin _, Infinity => true
  | Fin a, Fin b => a <? b
  end.

Definition gt (x y : number) : bool := lt y x.

(** [x >= y] *)
Definition ge (x y : number) : bool :=
  match x, y with
  | NaN, _ | _, NaN => false
  | Infinity, _ => true
  | Fin _, Infinity => false
  | Fin a, Fin b => b <=? a
  end.

(** [Math.floor(x / 2)]: halving a double is exact, so the floor of the
    half is the integer quotient. *)
Definition Math_floor_half (x : number) : number :=
  match x with
  | Fin a => Fin (a / 2)
  | Infinity => Infinity
  | NaN => NaN
  end.

(** [Math.max(x, y)] *)
Definition Math_max (x y : number) : number :=
  match x, y with
  | NaN, _ | _, NaN => NaN
  | Infinity, _ | _, Infinity => Infinity
  | Fin a, Fin b => Fin (Z.max a b)
  end.

(** The integer-valued finite doubles of [SpecFloat], read back as a
    [number]; used to compare [of_integer] and [add] with the Standard
    Library's model of IEEE 754 binary64. *)
Definition of_spec_float (f : spec_float) : number :=
  match f with
  | S754_zero _ => Fin 0
  | S754_infinity false => Infinity
  | S754_finite false m e =>
      if 0 <=? e then Fin (Z.pos m * 2 ^ e)
      else if Z.pos m mod 2 ^ (- e) =? 0 then Fin (Z.pos m / 2 ^ (- e))
      else NaN
  | _ => NaN
  end.

(** [Math.floor] of a non-negative double of [SpecFloat]. *)
Definition floor_spec_float (f : spec_float) : number :=
  match f with
  | S754_zero _ => Fin 0
  | S754_infinity false => Infinity
  | S754_finite false m e =>
      if 0 <=? e then Fin (Z.pos m * 2 ^ e) else Fin (Z.pos m / 2 ^ (- e))
  | _ => NaN
  end.

End Number.
Export Number.

(** ** Strings: digits and the range pattern *)

Definition is_digit (c : ascii) : bool :=
  let n := N_of_ascii c in ((48 <=? n) && (n <=? 57))%N.

Definition digit_value (c : ascii) : Z := Z.of_N (N_of_ascii c) - 48.

(** [span_digits s]: the longest prefix of decimal digits and what follows. *)
Fixpoint span_digits (s : string) : string * string :=
  match s with
  | EmptyString => (EmptyString, EmptyString)
  | String c s' =>
      if is_digit c
      then let (d, r) := span_digits s' in (String c d, r)
      else (EmptyString, s)
  end.

Fixpoint all_digits (s : string) : bool :=
  match s with
  | EmptyString => true
  | String c s' => is_digit c && all_digits s'
  end.

Definition nonempty (s : string) : bool :=
  match s with EmptyString => false | _ => true end.

(** [s.match(/^(\d+)-(\d+)$/)]: the two captures, or [None] for [null].
    The first [\d+] is followed by a hyphen, so it is the whole leading run
    of digits; the second must reach the end of the input. *)
Definition match_range (s : string) : option (string * string) :=
  let (a, rest) := span_digits s in
  match rest with
  | String "-"%char b =>
      if nonempty a && nonempty b && all_digits b then Some (a, b) else None
  | _ => None
  end.

(** [/^\d+-\d+$/.test(s)] *)
Definition regex_range_test (s : string) : bool :=
  match match_range s with Some _ => true | None => false end.

(** The integer written by a string of decimal digits. *)
Fixpoint digits_value_from (acc : Z) (s : string) : Z :=
  match s with
  | EmptyString => acc
  | String c s' => digits_value_from (10 * acc + digit_value c) s'
  end.

Definition digits_value (s : string) : Z := digits_value_from 0 s.

(** [parseInt(s, 10)] on a string that starts with its digits (no white
    space or sign in front, which a [\d+] capture never has): the leading
    run of digits is read as an integer and rounded to a double; with no
    digit at all the result is [NaN]. *)
Definition parseInt (s : string) : number :=
  let (d, _) := span_digits s in
  match d with
  | EmptyString => NaN
  | _ => of_integer (digits_value d)
  end.

(** The decimal numeral of [10^n]: a one followed by [n] zeros. *)
Fixpoint zeros (n : nat) : string :=
  match n with
  | O => EmptyString
  | S n' => String "0"%char (zeros n')
  end.

Definition power_of_ten (n : nat) : string := String "1"%char (zeros n).

(** ** [schema.ts]: word count *)

(** The [.refine] callback of [word_count]. *)
Definition word_count_refine (val : string) : bool :=
  match match_range val with
  | None => false
  | Some (m1, _) =>
      let min := parseInt m1 in
      ge min (Fin 50)
  end.

(** [blogPostSchema.word_count]: the [.regex] check and the refinement must
    both pass. *)
Definition word_count_schema (val : string) : bool :=
  regex_range_test val && word_count_refine val.

Definition normalizeWordCount (wordCount : string) : number :=
  match match_range wordCount with
  | None => Fin 50
  | Some (m1, m2) =>
      let min := parseInt m1 in
      let max := parseInt m2 in
      if lt min (Fin 50) || lt max (Fin 50) || gt min max then Fin 50
      else
        let result := Math_floor_half (add min max) in
        Math_max (Fin 50) result
  end.

(** [BlogPostForm]: [handleSubmit] runs the schema and calls [onSubmit],
    which computes the word target, only when validation passes; [None] is
    the validation error shown under the field. *)
Definition submit_word_target (word_count : string) : option number :=
  if word_count_schema word_count
  then Some (normalizeWordCount word_count)
  else None.

(** ** [schema.ts]: tone *)

(** The letters of the Latin-1 range that have a lower-case form: A-Z,
    and U+00C0-U+00DE without the multiplication sign U+00D7. *)
Definition is_upper (c : ascii) : bool :=
  let n := N_of_ascii c in
  (((65 <=? n) && (n <=? 90))
   || ((192 <=? n) && (n <=? 214))
   || ((216 <=? n) && (n <=? 222)))%N.

Definition lower_char (c : ascii) : ascii :=
  if is_upper c then ascii_of_N (N_of_ascii c + 32) else c.

(** [s.toLowerCase()] *)
Fixpoint toLowerCase (s : string) : string :=
  match s with
  | EmptyString => EmptyString
  | String c s' => String (lower_char c) (toLowerCase s')
  end.

(** White space and line terminators of ECMAScript below 256: TAB, LF, VT,
    FF, CR, SP and NBSP. *)
Definition is_white_space (c : ascii) : bool :=
  let n := N_of_ascii c in
  (((9 <=? n) && (n <=? 13)) || (n =? 32) || (n =? 160))%N.

Fixpoint trimStart (s : string) : string :=
  match s with
  | EmptyString => EmptyString
  | String c s' => if is_white_space c then trimStart s' else s
  end.

Fixpoint trimEnd (s : string) : string :=
  match s with
  | EmptyString => EmptyString
  | String c s' =>
      match trimEnd s' with
      | EmptyString => if is_white_space c then EmptyString else String c EmptyString
      | t => String c t
      end
  end.

(** [s.trim()] *)
Definition trim (s : string) : string := trimEnd (trimStart s).

Definition normalizeTone (tone : string) : string := trim (toLowerCase tone).

(** A string that does not start with white space. *)
Definition starts_clean (s : string) : Prop :=
  match s with
  | EmptyString => True
  | String c _ => is_white_space c = false
  end.

(** The values of [z.enum([...])] for [tone], the same list in every schema. *)
Definition TONES : list string :=
  ["professional"; "casual"; "friendly"; "formal"; "engaging"; "persuasive"].

(** [blogPostSchema.tone]: [z.enum] accepts a string exactly when it is one
    of the listed values ([values.indexOf(input) !== -1]). *)
Definition tone_schema (tone : string) : bool :=
  existsb (String.eqb tone) TONES.

(** ** [api.ts]: the streaming client *)

(** Values produced by [JSON.parse]. A number is an IEEE 754 double. *)
Inductive json : Type :=
| JNull
| JBool (b : bool)
| JNumber (x : spec_float)
| JString (s : string)
| JArray (items : list json)
| JObject (fields : list (string * json)).

(** An expression either yields a value or throws. *)
Inductive outcome (A : Type) : Type :=
| Return (a : A)
| Throws.
Arguments Return {A} a.
Arguments Throws {A}.

(** Own property [key] of an object built by [JSON.parse]; [fields] lists
    the own properties, each key once. *)
Fixpoint own_property (key : string) (fields : list (string * json)) : option json :=
  match fields with
  | [] => None
  | (k, v) :: rest => if String.eqb k key then Some v else own_property key rest
  end.

(** [data.content]: [None] is [undefined]. Reading a property of [null]
    throws a TypeError; primitives and arrays have no [content]. *)
Definition get_content (data : json) : outcome (option json) :=
  match data with
  | JNull => Throws
  | JObject fields => Return (own_property "content" fields)
  | _ => Return None
  end.

(** Truthiness, as tested by [if (data.content)]. *)
Definition truthy (v : json) : bool :=
  match v with
  | JNull => false
  | JBool b => b
  | JNumber (S754_zero _) | JNumber S754_nan => false
  | JNumber _ => true
  | JString EmptyString => false
  | JString _ => true
  | JArray _ | JObject _ => true
  end.

(** Actions of the client that the outside observes, in the order they
    happen. The caller's callbacks are recorded as they are called and are
    taken to return normally. *)
Inductive action : Type :=
| EventSource_close
| onChunk (chunk : json)
| onComplete (fullContent : string)
| onError (error : string)
| console_error.

(** What the EventSource delivers, and the caller using the function that
    [generateContentStream] returns. *)
Inductive event : Type :=
| Message (data : string)
| Error
| Cancel.

(** The mutable state of one call: [fullContent] and whether the
    EventSource has been closed. *)
Record stream : Type := mkStream { closed : bool; fullContent : string }.

Definition DONE : string := "[DONE]".

Module Stream.
Section StreamClient.

(** [JSON.parse] ([None]: it throws a SyntaxError) and the digits of
    Number-to-string conversion belong to the runtime. *)
Variable JSON_parse : string -> option json.
Variable Number_toString : spec_float -> string.

(** The string that [+] makes of a value: ToPrimitive, then ToString.
    An array is joined with commas, [null] items left empty; a plain
    object is ["[object Object]"], unless an own [toString] property (not
    callable, as it comes from JSON) hides the inherited method, in which
    case the conversion throws a TypeError. *)
Fixpoint ToString (v : json) : outcome string :=
  match v with
  | JNull => Return "null"
  | JBool true => Return "true"
  | JBool false => Return "false"
  | JNumber x => Return (Number_toString x)
  | JString s => Return s
  | JArray items =>
      (fix join (l : list json) : outcome string :=
         match l with
         | [] => Return ""
         | x :: rest =>
             let item := match x with JNull => Return "" | _ => ToString x end in
             match item, rest with
             | Throws, _ => Throws
             | Return s, [] => Return s
             | Return s, _ :: _ =>
                 match join rest with
                 | Throws => Throws
                 | Return t => Return (s +:+ "," +:+ t)
                 end
             end
         end) items
  | JObject fields =>
      match own_property "toString" fields with
      | Some _ => Throws
      | None => Return "[object Object]"
      end
  end.

(** [eventSource.onmessage] *)
Definition onmessage (data : string) (st : stream) : stream * list action :=
  if String.eqb data DONE then
    (mkStream true (fullContent st), [EventSource_close; onComplete (fullContent st)])
  else
    match JSON_parse data with
    | None => (st, [console_error])
    | Some parsed =>
        match get_content parsed with
        | Throws => (st, [console_error])
        | Return None => (st, [])
        | Return (Some content) =>
            if truthy content then
              match ToString content with
              | Throws => (st, [console_error])
              | Return text =>
                  (mkStream (closed st) (fullContent st +:+ text), [onChunk content])
              end
            else (st, [])
        end
    end.

(** [eventSource.onerror] *)
Definition onerror (st : stream) : stream * list action :=
  (mkStream true (fullContent st), [EventSource_close; onError "Stream connection error"]).

(** The function returned to the caller: [() => eventSource.close()]. *)
Definition cancel (st : stream) : stream * list action :=
  (mkStream true (fullContent st), [EventSource_close]).

(** A closed EventSource dispatches no event to its handlers. *)
Definition dispatch (ev : event) (st : stream) : stream * list action :=
  match ev with
  | Message data => if closed st then (st, []) else onmessage data st
  | Error => if closed st then (st, []) else onerror st
  | Cancel => cancel st
  end.

Fixpoint run (evs : list event) (st : stream) : stream * list action :=
  match evs with
  | [] => (st, [])
  | ev :: rest =>
      let (st1, out1) := dispatch ev st in
      let (st2, out2) := run rest st1 in
      (st2, out1 ++ out2)
  end.

(** [generateContentStream]: a fresh EventSource and [let fullContent = ''],
    then whatever the stream delivers. *)
Definition generateContentStream (evs : list event) : stream * list action :=
  run evs (mkStream false "").

(** The frames as the protocol describes them: the content a frame
    carries, if it parses to an object whose [content] is truthy and can
    be appended. *)
Definition frame_content (data : string) : option (json * string) :=
  match JSON_parse data with
  | Some (JObject fields) =>
      match own_property "content" fields with
      | Some content =>
          match ToString content with
          | Return text => if truthy content then Some (content, text) else None
          | Throws => None
          end
      | None => None
      end
  | _ => None
  end.

Definition contents (frames : list string) : list (json * string) :=
  omap frame_content frames.

Definition concatenation (frames : list string) : string :=
  fold_right String.append "" (map snd (contents frames)).

End StreamClient.
End Stream.
Export Stream.

(** Projections of a trace. *)
Definition chunks (out : list action) : list json :=
  omap (fun a => match a with onChunk c => Some c | _ => None end) out.

Definition is_terminal (a : action) : bool :=
  match a with onComplete _ | onError _ => true | _ => false end.

Definition terminals (out : list action) : list action :=
  List.filter is_terminal out.

(** The callbacks of the caller, without the calls to the EventSource and
    to the console. *)
Definition is_callback (a : action) : bool :=
  match a with onChunk _ | onComplete _ | onError _ => true | _ => false end.

Definition callbacks (out : list action) : list action :=
  List.filter is_callback out.

(** A JSON reader for the frames of the examples: an object with the
    one field [content] holding a text without escapes, the empty object
    and [null]; everything else is refused. *)
Definition dquote : ascii := ascii_of_nat 34.

Definition frame_prefix : string :=
  "{" +:+ String dquote "content" +:+ String dquote ":" +:+ String dquote "".

(** The frame the server sends for a text delta. *)
Definition content_frame (text : string) : string :=
  frame_prefix +:+ text +:+ String dquote "}".

Fixpoint read_text (s : string) : option string :=
  match s with
  | EmptyString => None
  | String c s' =>
      if Ascii.eqb c dquote then
        if String.eqb s' "}" then Some EmptyString else None
      else if Ascii.eqb c "\"%char then None
      else option_map (String c) (read_text s')
  end.

Definition parse_frame (s : string) : option json :=
  if String.eqb s "{}" then Some (JObject [])
  else if String.eqb s "null" then Some JNull
  else if String.prefix frame_prefix s
  then option_map (fun t => JObject [("content", JString t)])
                  (read_text (String.substring 12 (String.length s - 12) s))
  else None.

(** No number occurs in the frames of the examples. *)
Definition no_numbers (x : spec_float) : string := "".

(** ** The response cache of the back end: request coalescing *)

Module ResponseCache.
Section Cache.

(** Fingerprints (stable hashes of normalised requests) and provider
    responses are left abstract; callers are numbered. *)
Context {fingerprint : Type} `{Countable fingerprint}.
Context {response : Type}.

Definition caller : Type := nat.

Record entry : Type := mkEntry { content : response; created : Z; ttl : Z }.

(** Modelled from the spec: the ResponseCache component (sections 4.4, 5
    and 9) belongs to the back end, whose code is not among the sources.
    The state holds the stored entries, the per-fingerprint in-progress
    marker with the callers attached to its shared future, and, as
    history, the provider invocations and the results handed to callers
    ([None] is a failed or cancelled computation). *)
Record cache : Type := mkCache {
  entries : gmap fingerprint entry;
  in_flight : gmap fingerprint (list caller);
  provider_calls : list fingerprint;
  delivered : list (caller * fingerprint * option response)
}.

(** Modelled from the spec: the default TTL of 3600 seconds of section 4.4. *)
Definition DEFAULT_TTL : Z := 3600.

(** Modelled from the spec: [get(fingerprint)] "returns a live
    (non-expired) entry or none"; "entries older than TTL are never
    returned". *)
Definition get (now : Z) (fp : fingerprint) (c : cache) : option response :=
  match entries c !! fp with
  | Some e => if now - created e <=? ttl e then Some (content e) else None
  | None => None
  end.

(** Modelled from the spec: [put(fingerprint, response)] "stores with TTL". *)
Definition put (now : Z) (fp : fingerprint) (r : response) (c : cache) : cache :=
  mkCache (<[fp := mkEntry r now DEFAULT_TTL]> (entries c))
          (in_flight c) (provider_calls c) (delivered c).

(** The points at which the event loop runs a piece of a handler: a
    request arrives, or the provider call made for a fingerprint settles
    ([Some r]: it returned [r]; [None]: it failed or was cancelled). *)
Inductive cache_event : Type :=
| Request (who : caller) (fp : fingerprint)
| Settled (fp : fingerprint) (result : option response).

Definition event_fingerprint (ev : cache_event) : fingerprint :=
  match ev with Request _ fp => fp | Settled fp _ => fp end.

(** Modelled from the spec: the request path of section 2 (cache lookup,
    on a miss the provider, then store) with the coalescing of sections
    4.4 and 9: "a per-fingerprint in-progress marker holding a shared
    future that late arrivals attach to, cleared on completion or
    cancellation". No suspension point lies between the lookup and the
    marker, so each event is one atomic step. *)
Definition step (now : Z) (ev : cache_event) (c : cache) : cache :=
  match ev with
  | Request who fp =>
      match get now fp c with
      | Some r =>
          mkCache (entries c) (in_flight c) (provider_calls c)
                  (delivered c ++ [(who, fp, Some r)])
      | None =>
          match in_flight c !! fp with
          | Some waiting =>
              mkCache (entries c) (<[fp := waiting ++ [who]]> (in_flight c))
                      (provider_calls c) (delivered c)
          | None =>
              mkCache (entries c) (<[fp := [who]]> (in_flight c))
                      (provider_calls c ++ [fp]) (delivered c)
          end
      end
  | Settled fp result =>
      match in_flight c !! fp with
      | None => c
      | Some waiting =>
          let c' := match result with Some r => put now fp r c | None => c end in
          mkCache (entries c') (delete fp (in_flight c)) (provider_calls c)
                  (delivered c ++ map (fun who => (who, fp, result)) waiting)
      end
  end.

(** A schedule: the events in the order the loop runs them, each with
    its time. *)
Fixpoint run_schedule (sched : list (Z * cache_event)) (c : cache) : cache :=
  match sched with
  | [] => c
  | (now, ev) :: rest => run_schedule rest (step now ev c)
  end.

(** Provider invocations made for [fp], and the results handed out for it. *)
Definition calls_for (fp : fingerprint) (c : cache) : list fingerprint :=
  filter (fun f => f = fp) (provider_calls c).

Definition results_for (fp : fingerprint) (c : cache)
  : list (caller * fingerprint * option response) :=
  filter (fun d => d.1.2 = fp) (delivered c).

Definition empty_cache : cache := mkCache ∅ ∅ [] [].

(** What a fingerprint sees of a cache state. *)
Definition view (fp : fingerprint) (c : cache) :=
  (entries c !! fp, in_flight c !! fp, calls_for fp c, results_for fp c).

End Cache.
End ResponseCache.

(** ** [schema.ts]: the optional word count and the whole blog post schema *)

(** [a || b] where [a] is a string or [undefined]: [b] unless [a] is a
    non-empty string. *)
Definition or_string (a : option string) (b : string) : string :=
  match a with
  | Some (String c s) => String c s
  | _ => b
  end.

(** [word_count] of [socialMediaSchema], [linkedinSchema] and
    [jobApplicationSchema]: the checks of the blog post schema under
    [.optional().default(d)]. An absent value ([None], [undefined]) is
    replaced by the default, which then goes through the same checks; the
    result is the parsed value, or [None] for a validation error. *)
Definition word_count_optional_schema (default : string) (val : option string)
  : option string :=
  let data := match val with None => default | Some v => v end in
  if word_count_schema data then Some data else None.

(** The defaults of the three schemas, which their forms repeat in
    [normalizeWordCount(data.word_count || d)]. *)
Definition SOCIAL_MEDIA_WORD_COUNT : string := "50-300".
Definition LINKEDIN_WORD_COUNT : string := "200-400".
Definition JOB_APPLICATION_WORD_COUNT : string := "300-500".

(** [SocialMediaForm], [LinkedInForm], [JobApplicationForm]: the word
    target that [onSubmit] computes from the validated data, [None] when
    validation stops the submission. *)
Definition submit_optional_word_target (default : string) (val : option string)
  : option number :=
  match word_count_optional_schema default val with
  | Some word_count => Some (normalizeWordCount (or_string (Some word_count) default))
  | None => None
  end.

(** [z.string()]: the value must be a string. *)
Definition z_string (v : option json) : option string :=
  match v with
  | Some (JString s) => Some s
  | _ => None
  end.

(** [.min(lo).max(hi)] on a string: bounds on [length]. *)
Definition length_between (lo hi : nat) (s : string) : bool :=
  (lo <=? String.length s)%nat && (String.length s <=? hi)%nat.

(** [z.enum(values)] *)
Definition z_enum (values : list string) (v : option json) : option string :=
  match z_string v with
  | Some s => if existsb (String.eqb s) values then Some s else None
  | None => None
  end.

Definition EXPERTISE_LEVELS : list string :=
  ["beginner"; "intermediate"; "advanced"].

(** The values a form hands to the resolver, field by field; [None] is
    [undefined]. *)
Record BlogPostValues : Type := mkBlogPostValues {
  raw_topic : option json;
  raw_target_audience : option json;
  raw_word_count : option json;
  raw_tone : option json;
  raw_seo_focus : option json;
  raw_expertise_level : option json
}.

(** [BlogPostFormData], the output type of [blogPostSchema]. *)
Record BlogPostFormData : Type := mkBlogPostFormData {
  topic : string;
  target_audience : string;
  word_count : string;
  tone : string;
  seo_focus : bool;
  expertise_level : string
}.

(** [blogPostSchema]: every field must pass; [None] is a validation error
    on some field. *)
Definition blogPostSchema (values : BlogPostValues) : option BlogPostFormData :=
  match z_string (raw_topic values),
        z_string (raw_target_audience values),
        z_string (raw_word_count values),
        z_enum TONES (raw_tone values) with
  | Some t, Some a, Some w, Some tn =>
      let seo :=
        match raw_seo_focus values with
        | None => Some false
        | Some (JBool b) => Some b
        | Some _ => None
        end in
      let expertise :=
        match raw_expertise_level values with
        | None => Some "beginner"
        | Some v => z_enum EXPERTISE_LEVELS (Some v)
        end in
      match seo, expertise with
      | Some s, Some e =>
          if length_between 3 200 t && length_between 3 100 a && word_count_schema w
          then Some (mkBlogPostFormData t a w tn s e)
          else None
      | _, _ => None
      end
  | _, _, _, _ => None
  end.

(** ** [api.ts] and [BlogPostForm]: one submission *)

Module Forms.

(** The request that [BlogPostForm] posts. *)
Record GenerateRequest : Type := mkRequest {
  content_type : string;
  context_topic : string;
  context_audience : string;
  context_tone : string;
  word_target : number;
  seo_enabled : bool;
  expertise : string
}.

(** [GenerateResponse]; the optional metadata is carried along unread. *)
Record GenerateResponse : Type := mkResponse {
  content : string;
  metadata : option json
}.

(** How [apiClient.post] settles: it resolves with the response data, or
    rejects with an AxiosError, of which the handler reads
    [response?.data?.detail] ([None] when any link is missing) and
    [message], or rejects with another Error, given by its [message]. *)
Inductive post_outcome : Type :=
| Resolved (data : GenerateResponse)
| RejectedAxios (detail : option string) (message : string)
| RejectedOther (message : string).

(** [generateContent]: the response data, or the message of the Error it
    throws. *)
Definition generateContent (outcome : post_outcome) : GenerateResponse + string :=
  match outcome with
  | Resolved data => inl data
  | RejectedAxios detail message =>
      inr (or_string detail (or_string (Some message) "Failed to generate content"))
  | RejectedOther message => inr message
  end.

(** What a submission does, in order. *)
Inductive form_action : Type :=
| onGenerateStart
| apiClient_post (request : GenerateRequest)
| onGenerate (content : string)
| onError (error : string).

(** [onSubmit] of [BlogPostForm], given how the request settles. *)
Definition onSubmit (data : BlogPostFormData) (outcome : post_outcome)
  : list form_action :=
  let wordTarget := normalizeWordCount (word_count data) in
  let request :=
    mkRequest "blog_post" (topic data) (target_audience data) (tone data)
              wordTarget (seo_focus data) (expertise_level data) in
  onGenerateStart :: apiClient_post request ::
  match generateContent outcome with
  | inl response => [onGenerate (content response)]
  | inr message => [onError (or_string (Some message) "Failed to generate content")]
  end.

(** [handleSubmit(onSubmit)]: the resolver runs [blogPostSchema]; with a
    validation error nothing is called. *)
Definition handleSubmit (values : BlogPostValues) (outcome : post_outcome)
  : list form_action :=
  match blogPostSchema values with
  | Some data => onSubmit data outcome
  | None => []
  end.

(** The state of [App] that generation touches. *)
Inductive tab : Type := editor | preview.

Record app_state : Type := mkApp {
  isGenerating : bool;
  app_content : string;
  draftStatus : string;
  activeTab : tab
}.

Definition handleContentGenerated (generatedContent : string) (st : app_state)
  : app_state :=
  mkApp false generatedContent "Draft Optimized" editor.

Definition handleGenerationStart (st : app_state) : app_state :=
  mkApp true "" "Establishing Neural Link..." (activeTab st).

Definition handleGenerationError (error : string) (st : app_state) : app_state :=
  mkApp false (app_content st) ("Error: " +:+ error) (activeTab st).

(** [App] passes its three handlers to the form as [onGenerate],
    [onGenerateStart] and [onError]. *)
Definition app_handle (a : form_action) (st : app_state) : app_state :=
  match a with
  | onGenerateStart => handleGenerationStart st
  | apiClient_post _ => st
  | onGenerate c => handleContentGenerated c st
  | onError e => handleGenerationError e st
  end.

Definition app_run (actions : list form_action) (st : app_state) : app_state :=
  fold_left (fun s a => app_handle a s) actions st.

End Forms.

(** ** [socialMediaSchema] and the request of [SocialMediaForm] *)

Module SocialMedia.

Definition zero : spec_float := S754_zero false.
Definition three : spec_float := binary_normalize 53 1024 3 0 false.
Definition twenty : spec_float := binary_normalize 53 1024 20 0 false.

(** [z.number()]: a number, and not [NaN]. *)
Definition z_number (v : option json) : option spec_float :=
  match v with
  | Some (JNumber S754_nan) => None
  | Some (JNumber x) => Some x
  | _ => None
  end.

(** [z.number().min(0).max(20).optional().default(3)]: a value fails
    [min] when it is below 0 and [max] when it is above 20. *)
Definition hashtag_count_schema (v : option json) : option spec_float :=
  let data := match v with None => Some (JNumber three) | Some _ => v end in
  match z_number data with
  | Some x => if negb (SFltb x zero) && negb (SFltb twenty x) then Some x else None
  | None => None
  end.

Record SocialMediaValues : Type := mkValues {
  raw_platform : option json;
  raw_topic : option json;
  raw_tone : option json;
  raw_goal : option json;
  raw_hashtag_count : option json;
  raw_word_count : option json
}.

(** [SocialMediaFormData]; [goal] is optional without a default. *)
Record SocialMediaFormData : Type := mkFormData {
  platform : string;
  topic : string;
  tone : string;
  goal : option string;
  hashtag_count : spec_float;
  word_count : string
}.

Definition socialMediaSchema (values : SocialMediaValues)
  : option SocialMediaFormData :=
  let goal :=
    match raw_goal values with
    | None => Some None
    | Some (JString g) => if (String.length g <=? 200)%nat then Some (Some g) else None
    | Some _ => None
    end in
  let word_count :=
    match raw_word_count values with
    | None => word_count_optional_schema SOCIAL_MEDIA_WORD_COUNT None
    | Some (JString w) => word_count_optional_schema SOCIAL_MEDIA_WORD_COUNT (Some w)
    | Some _ => None
    end in
  match z_string (raw_platform values), z_string (raw_topic values),
        z_enum TONES (raw_tone values), goal,
        hashtag_count_schema (raw_hashtag_count values), word_count with
  | Some p, Some t, Some tn, Some g, Some h, Some w =>
      if length_between 2 50 p && length_between 3 500 t
      then Some (mkFormData p t tn g h w)
      else None
  | _, _, _, _, _, _ => None
  end.

(** The request that [onSubmit] builds. *)
Record GenerateRequest : Type := mkRequest {
  content_type : string;
  context_platform : string;
  context_topic : string;
  context_tone : string;
  context_goal : string;
  spec_hashtag_count : spec_float;
  word_target : number
}.

Definition request_of (data : SocialMediaFormData) : GenerateRequest :=
  let wordTarget :=
    normalizeWordCount (or_string (Some (word_count data)) SOCIAL_MEDIA_WORD_COUNT) in
  mkRequest "social_media" (platform data) (topic data) (tone data)
            (or_string (goal data) "Engage audience")
            (if truthy (JNumber (hashtag_count data)) then hashtag_count data else three)
            wordTarget.

(** [handleSubmit(onSubmit)]: the request posted, if validation passes. *)
Definition submitted_request (values : SocialMediaValues) : option GenerateRequest :=
  option_map request_of (socialMediaSchema values).

End SocialMedia.

(** ** [App]: the word counter *)

(** [content.split(/\s+/)]: the pieces between the maximal runs of white
    space, with an empty piece in front of a leading run and after a
    trailing one; the empty string gives one empty piece. [in_run] tells
    that the scan is inside a run whose piece has been closed. *)
Fixpoint split_go (in_run : bool) (s : string) : list string :=
  match s with
  | EmptyString => [EmptyString]
  | String c s' =>
      if is_white_space c then
        if in_run then split_go true s' else EmptyString :: split_go true s'
      else
        match split_go false s' with
        | piece :: pieces => String c piece :: pieces
        | [] => [String c EmptyString]
        end
  end.

Definition split_white_space (s : string) : list string := split_go false s.

(** [content.split(/\s+/).filter(x => x.length > 0).length] *)
Definition wordCount (content : string) : nat :=
  length (List.filter nonempty (split_white_space content)).

(** The number of places where a word begins: a character that is not
    white space, at the start or after white space. *)
Fixpoint word_starts (after_space : bool) (s : string) : nat :=
  match s with
  | EmptyString => O
  | String c s' =>
      if is_white_space c then word_starts true s'
      else ((if after_space then 1 else 0) + word_starts false s')%nat
  end.

Fixpoint string_forall (P : ascii -> bool) (s : string) : bool :=
  match s with
  | EmptyString => true
  | String c s' => P c && string_forall P s'
  end.

(** [words.join(" ")] *)
Fixpoint join_spaces (words : list string) : string :=
  match words with
  | [] => EmptyString
  | [w] => w
  | w :: rest => w +:+ " " +:+ join_spaces rest
  end.

(** A word: not empty and free of white space. *)
Definition is_word (w : string) : bool :=
  nonempty w && string_forall (fun c => negb (is_white_space c)) w.

(** ** Exporters *)

Definition is_hash (c : ascii) : bool := Ascii.eqb c "#"%char.
Definition is_star (c : ascii) : bool := Ascii.eqb c "*"%char.

Fixpoint count_prefix (P : ascii -> bool) (s : string) : nat :=
  match s with
  | EmptyString => O
  | String c s' => if P c then S (count_prefix P s') else O
  end.

Fixpoint drop_chars (n : nat) (s : string) : string :=
  match n, s with
  | O, _ => s
  | S n', String _ s' => drop_chars n' s'
  | S _, EmptyString => EmptyString
  end.

(** [/#{1,6}\s+/] tried at the start of [s]: the length of the match. The
    hashes taken must be followed by white space, so they are the whole
    run of hashes, which must have length 1 to 6; the white space is
    taken greedily. *)
Definition heading_match (s : string) : option nat :=
  let hashes := count_prefix is_hash s in
  let spaces := count_prefix is_white_space (drop_chars hashes s) in
  if (1 <=? hashes)%nat && (hashes <=? 6)%nat && (1 <=? spaces)%nat
  then Some (hashes + spaces)%nat
  else None.

(** [s.replace(/#{1,6}\s+/g, '')]: the matches are found from left to
    right, each search starting where the last match ended; [skip] counts
    the characters of the current match still to be dropped. *)
Fixpoint replace_headings (skip : nat) (s : string) : string :=
  match s with
  | EmptyString => EmptyString
  | String c s' =>
      match skip with
      | S k => replace_headings k s'
      | O =>
          match heading_match s with
          | Some (S n) => replace_headings n s'
          | _ => String c (replace_headings O s')
          end
      end
  end.

(** [s.replace(/\*\*/g, '')] *)
Fixpoint replace_star_pairs (s : string) : string :=
  match s with
  | EmptyString => EmptyString
  | String c s' =>
      match s' with
      | String d s'' =>
          if is_star c && is_star d then replace_star_pairs s''
          else String c (replace_star_pairs s')
      | EmptyString => String c EmptyString
      end
  end.

(** [s.replace(/\*/g, '')] *)
Fixpoint replace_stars (s : string) : string :=
  match s with
  | EmptyString => EmptyString
  | String c s' =>
      if is_star c then replace_stars s' else String c (replace_stars s')
  end.

(** The [text] that [exportToPlainText] writes to the file. *)
Definition exportToPlainText_text (content : string) : string :=
  replace_stars (replace_star_pairs (replace_headings O content)).

(** [cleanMarkdown], the [md] that [exportToMarkdown] writes. *)
Definition cleanMarkdown (md : string) : string := trim md.

(** A string that does not end with white space. *)
Fixpoint ends_clean (s : string) : Prop :=
  match s with
  | EmptyString => True
  | String c EmptyString => is_white_space c = false
  | String _ s' => ends_clean s'
  end.

(** * Properties *)

(** ** Digits and the range pattern *)

Lemma span_digits_all_digits (d : string) :
  all_digits d = true -> span_digits d = (d, EmptyString).
Proof.
  induction d as [|c d IH]; simpl; [reflexivity|].
  intros [Hc Hd]%andb_prop. rewrite Hc, (IH Hd). reflexivity.
Qed.

Lemma span_digits_inv (s d r : string) :
  span_digits s = (d, r) -> s = d +:+ r /\ all_digits d = true.
Proof.
  revert d r. induction s as [|c s IH]; simpl; intros d r Hs.
  - inversion Hs. split; reflexivity.
  - destruct (is_digit c) eqn:Hc.
    + destruct (span_digits s) as [d' r'] eqn:Hs'. inversion Hs; subst.
      destruct (IH d' r eq_refl) as [-> Hd']. simpl. rewrite Hc, Hd'.
      split; reflexivity.
    + inversion Hs. split; reflexivity.
Qed.

(** A match has the shape [min-max], both parts non-empty runs of digits. *)
Lemma match_range_inv (s a b : string) :
  match_range s = Some (a, b) ->
  s = a +:+ "-" +:+ b /\
  all_digits a = true /\ nonempty a = true /\
  all_digits b = true /\ nonempty b = true.
Proof.
  unfold match_range. destruct (span_digits s) as [d r] eqn:Hs.
  destruct (span_digits_inv _ _ _ Hs) as [-> Hd].
  destruct r as [|c r]; [discriminate|].
  destruct (Ascii.eqb_spec c "-"%char) as [->|Hne].
  - destruct (nonempty d && nonempty r && all_digits r) eqn:Hok; [|discriminate].
    intros [= <- <-].
    apply andb_prop in Hok as [[Ha Hb]%andb_prop Hdb]. auto.
  - destruct c as [[] [] [] [] [] [] [] []]; try discriminate. congruence.
Qed.

(** Conversely, every such string matches, with these captures. *)
Lemma match_range_intro (a b : string) :
  all_digits a = true -> nonempty a = true ->
  all_digits b = true -> nonempty b = true ->
  match_range (a +:+ "-" +:+ b) = Some (a, b).
Proof.
  intros Ha Hna Hb Hnb. unfold match_range.
  assert (Hspan : span_digits (a +:+ "-" +:+ b) = (a, "-" +:+ b)).
  { clear Hna. induction a as [|c a IH]; simpl; [reflexivity|].
    simpl in Ha. apply andb_prop in Ha as [Hc Ha].
    rewrite Hc, (IH Ha). reflexivity. }
  rewrite Hspan. change ("-" +:+ b) with (String "-"%char b).
  rewrite Hna, Hnb, Hb. reflexivity.
Qed.

Lemma parseInt_digits (d : string) :
  all_digits d = true -> nonempty d = true ->
  parseInt d = of_integer (digits_value d).
Proof.
  intros Hd Hn. unfold parseInt. rewrite (span_digits_all_digits d Hd).
  destruct d; [discriminate|reflexivity].
Qed.

Lemma digit_value_range (c : ascii) :
  is_digit c = true -> 0 <= digit_value c <= 9.
Proof.
  unfold is_digit, digit_value. cbv zeta.
  intros [H1 H2]%andb_prop.
  apply N.leb_le in H1, H2. lia.
Qed.

Lemma digits_value_from_nonneg (d : string) (acc : Z) :
  all_digits d = true -> 0 <= acc -> 0 <= digits_value_from acc d.
Proof.
  revert acc. induction d as [|c d IH]; simpl; intros acc Hd Hacc; [assumption|].
  apply andb_prop in Hd as [Hc Hd].
  apply IH; [assumption|]. pose proof (digit_value_range c Hc). lia.
Qed.

Lemma digits_value_nonneg (d : string) :
  all_digits d = true -> 0 <= digits_value d.
Proof. intros Hd. apply digits_value_from_nonneg; [assumption|lia]. Qed.

(** ** Rounding to a double *)

Lemma pow2_53_lt_emax : 2 ^ prec < 2 ^ emax.
Proof. apply Z.pow_lt_mono_r; unfold prec, emax; lia. Qed.

(** Integers below [2^53] are doubles. *)
Lemma of_integer_exact (z : Z) : z < 2 ^ prec -> of_integer z = Fin z.
Proof.
  intros Hz. unfold of_integer, round_nearest_even.
  destruct (Z.ltb_spec z (2 ^ prec)); [|lia].
  cbv zeta. destruct (Z.ltb_spec z (2 ^ emax)); [reflexivity|].
  pose proof pow2_53_lt_emax. lia.
Qed.

Lemma of_integer_two53 : of_integer (2 ^ prec) = Fin (2 ^ prec).
Proof. vm_compute. reflexivity. Qed.

(** Rounding never more than doubles a value. *)
Lemma round_nearest_even_le_double (z : Z) :
  0 <= z -> 0 <= round_nearest_even z <= 2 * z.
Proof.
  intros Hz. unfold round_nearest_even.
  destruct (Z.ltb_spec z (2 ^ prec)) as [Hlt|Hge]; [lia|].
  cbv zeta.
  assert (Hp : 0 < 2 ^ prec) by (apply Z.pow_pos_nonneg; unfold prec; lia).
  assert (Hz0 : 0 < z) by lia.
  pose proof (Z.log2_spec z Hz0) as [Hlo Hhi].
  assert (Hlog : prec <= Z.log2 z).
  { apply Z.log2_le_pow2; lia. }
  set (e := Z.log2 z - (prec - 1)) in *.
  assert (He : 0 < e) by (unfold e; lia).
  rewrite Z.shiftr_div_pow2 by lia.
  set (q := z / 2 ^ e).
  assert (H2e : 0 < 2 ^ e) by (apply Z.pow_pos_nonneg; lia).
  assert (Hq : q * 2 ^ e <= z).
  { unfold q. pose proof (Z.mul_div_le z (2 ^ e) H2e). lia. }
  assert (Hq0 : 0 <= q) by (unfold q; apply Z.div_pos; lia).
  assert (Hez : 2 ^ e <= z).
  { transitivity (2 ^ Z.log2 z); [|assumption].
    apply Z.pow_le_mono_r; unfold e, prec; lia. }
  assert (Hq' : forall q', q <= q' <= q + 1 -> 0 <= Z.shiftl q' e <= 2 * z).
  { intros q' Hq'. rewrite Z.shiftl_mul_pow2 by lia. split; [nia|].
    transitivity ((q + 1) * 2 ^ e); [nia|lia]. }
  repeat match goal with |- context [if ?b then _ else _] => destruct b end;
    apply Hq'; lia.
Qed.

Lemma of_integer_finite (z : Z) :
  0 <= z -> 2 * z < 2 ^ emax -> exists m, of_integer z = Fin m /\ 0 <= m <= 2 * z.
Proof.
  intros Hz Hb. pose proof (round_nearest_even_le_double z Hz) as Hr.
  unfold of_integer. cbv zeta.
  destruct (Z.ltb_spec (round_nearest_even z) (2 ^ emax)); [|lia].
  eexists; split; [reflexivity|lia].
Qed.

Lemma of_integer_cases (z : Z) :
  (exists m, of_integer z = Fin m) \/ of_integer z = Infinity.
Proof.
  unfold of_integer. cbv zeta.
  destruct (round_nearest_even z <? 2 ^ emax); eauto.
Qed.

(** [of_integer] and [add] against the Standard Library's binary64
    ([binary_normalize] and [SFadd] at precision 53, [emax] 1024), on
    integers around the places where rounding and overflow set in. *)
Example of_integer_binary64 :
  Forall (fun z => of_spec_float (binary_normalize 53 1024 z 0 false) = of_integer z)
    [0; 50; 175; 2 ^ 53 - 1; 2 ^ 53; 2 ^ 53 + 1; 2 ^ 53 + 2; 2 ^ 53 + 3;
     2 ^ 54 + 2; 2 ^ 54 + 6; 10 ^ 22; 10 ^ 23; 123456789012345678901234567890;
     2 ^ 1024 - 2 ^ 970 - 1; 2 ^ 1024 - 2 ^ 970; 10 ^ 309].
Proof.
  repeat (apply List.Forall_cons; [vm_compute; reflexivity|]).
  apply List.Forall_nil.
Qed.

Example add_binary64 :
  Forall (fun p : Z * Z =>
            of_spec_float (SFadd 53 1024 (binary_normalize 53 1024 p.1 0 false)
                                         (binary_normalize 53 1024 p.2 0 false))
            = add (of_integer p.1) (of_integer p.2))
    [(50, 300); (2 ^ 52, 2 ^ 52); (2 ^ 53, 1); (2 ^ 53, 2 ^ 53 + 2);
     (2 ^ 53 - 4, 2 ^ 53 - 1); (10 ^ 308, 10 ^ 308); (50, 10 ^ 309)].
Proof.
  repeat (apply List.Forall_cons; [vm_compute; reflexivity|]).
  apply List.Forall_nil.
Qed.

Example Math_floor_half_binary64 :
  Forall (fun z =>
            floor_spec_float (SFdiv 53 1024 (binary_normalize 53 1024 z 0 false)
                                            (binary_normalize 53 1024 2 0 false))
            = Math_floor_half (of_integer z))
    [0; 1; 2; 3; 101; 350; 351; 2 ^ 53 - 1; 2 ^ 53 + 2; 2 ^ 54 + 4; 10 ^ 308].
Proof.
  repeat (apply List.Forall_cons; [vm_compute; reflexivity|]).
  apply List.Forall_nil.
Qed.

(** The pattern is anchored at both ends and takes digits only. *)
Example match_range_samples :
  match_range "50-300" = Some ("50", "300") /\
  match_range "007-0300" = Some ("007", "0300") /\
  match_range "50-300 " = None /\
  match_range "50 - 300" = None /\
  match_range "50-300-400" = None /\
  match_range "-300" = None /\
  match_range "50-" = None /\
  match_range "" = None.
Proof. repeat split; reflexivity. Qed.

(** ** Word count *)

(** What [normalizeWordCount] computes on a match, in terms of the parsed
    bounds. *)
Lemma normalizeWordCount_match (s a b : string) :
  match_range s = Some (a, b) ->
  normalizeWordCount s =
    if lt (parseInt a) (Fin 50) || lt (parseInt b) (Fin 50)
       || gt (parseInt a) (parseInt b)
    then Fin 50
    else Math_max (Fin 50) (Math_floor_half (add (parseInt a) (parseInt b))).
Proof. intros Hm. unfold normalizeWordCount. rewrite Hm. reflexivity. Qed.

Lemma word_count_schema_match (s a b : string) :
  match_range s = Some (a, b) ->
  word_count_schema s = ge (parseInt a) (Fin 50).
Proof.
  intros Hm. unfold word_count_schema, regex_range_test, word_count_refine.
  rewrite Hm. reflexivity.
Qed.

(** C1 (amended): for every range string [min-max] with
    [50 <= min <= max] whose bounds sum to at most [2^53] (so that the
    bounds and their sum are exact doubles), [normalizeWordCount] returns
    [max(50, floor((min+max)/2))]. *)
Theorem normalizeWordCount_midpoint (s a b : string) :
  match_range s = Some (a, b) ->
  50 <= digits_value a <= digits_value b ->
  digits_value a + digits_value b <= 2 ^ 53 ->
  normalizeWordCount s =
    Fin (Z.max 50 ((digits_value a + digits_value b) / 2)).
Proof.
  intros Hm Hord Hsum.
  destruct (match_range_inv _ _ _ Hm) as (_ & Ha & Hna & Hb & Hnb).
  rewrite (normalizeWordCount_match _ _ _ Hm).
  rewrite (parseInt_digits a Ha Hna), (parseInt_digits b Hb Hnb).
  set (x := digits_value a) in *. set (y := digits_value b) in *.
  change (2 ^ 53) with (2 ^ prec) in Hsum.
  rewrite (of_integer_exact x), (of_integer_exact y) by lia.
  unfold gt, lt, add.
  destruct (Z.ltb_spec x 50); [lia|].
  destruct (Z.ltb_spec y 50); [lia|].
  destruct (Z.ltb_spec y x); [lia|]. cbn [orb].
  destruct (Z.eq_dec (x + y) (2 ^ prec)) as [Heq|Hne].
  - rewrite Heq, of_integer_two53. reflexivity.
  - rewrite of_integer_exact by lia. reflexivity.
Qed.

(** The range of the spec's example: the target of ["50-300"] is 175. *)
Lemma normalizeWordCount_midpoint_witness :
  normalizeWordCount "50-300" = Fin 175.
Proof.
  apply (normalizeWordCount_midpoint "50-300" "50" "300"); vm_compute;
    first [reflexivity | split; discriminate | discriminate].
Defined.

(** C1 as stated fails beyond the integers that a double holds exactly:
    [2^53 + 1] is read as [2^53], and so is the target. *)
Lemma normalizeWordCount_midpoint_counterexample :
  match_range "9007199254740993-9007199254740993"
    = Some ("9007199254740993", "9007199254740993") /\
  50 <= digits_value "9007199254740993" <= digits_value "9007199254740993" /\
  normalizeWordCount "9007199254740993-9007199254740993" = Fin 9007199254740992 /\
  normalizeWordCount "9007199254740993-9007199254740993" <>
    Fin (Z.max 50 ((digits_value "9007199254740993"
                    + digits_value "9007199254740993") / 2)).
Proof.
  repeat split; try (vm_compute; first [reflexivity | discriminate]).
Qed.

(** C2: a range whose minimum is below 50 fails the schema, so the form is
    not submitted and no target is computed. *)
Theorem word_count_below_floor_rejected (s a b : string) :
  match_range s = Some (a, b) ->
  digits_value a < 50 ->
  word_count_schema s = false /\ submit_word_target s = None.
Proof.
  intros Hm Hlow.
  destruct (match_range_inv _ _ _ Hm) as (_ & Ha & Hna & _).
  assert (Hs : word_count_schema s = false).
  { rewrite (word_count_schema_match _ _ _ Hm), (parseInt_digits a Ha Hna).
    rewrite of_integer_exact.
    - unfold ge. apply Z.leb_gt. assumption.
    - pose proof pow2_53_lt_emax.
      assert (50 < 2 ^ prec) by (vm_compute; reflexivity). lia. }
  split; [assumption|]. unfold submit_word_target. rewrite Hs. reflexivity.
Qed.

Lemma word_count_below_floor_rejected_witness :
  word_count_schema "10-40" = false /\ submit_word_target "10-40" = None.
Proof.
  apply (word_count_below_floor_rejected "10-40" "10" "40");
    vm_compute; reflexivity.
Defined.

(** C3 (amended): a range whose parsed minimum exceeds its parsed maximum
    is given the fallback target 50 by [normalizeWordCount]; the schema,
    which checks the format and the floor only, accepts it exactly when
    its minimum is at least 50, and the form then submits the target 50. *)
Theorem word_count_inverted_range (s a b : string) :
  match_range s = Some (a, b) ->
  gt (parseInt a) (parseInt b) = true ->
  normalizeWordCount s = Fin 50 /\
  word_count_schema s = ge (parseInt a) (Fin 50) /\
  (ge (parseInt a) (Fin 50) = true -> submit_word_target s = Some (Fin 50)).
Proof.
  intros Hm Hgt.
  assert (Hn : normalizeWordCount s = Fin 50).
  { rewrite (normalizeWordCount_match _ _ _ Hm), Hgt.
    rewrite !orb_true_r. reflexivity. }
  pose proof (word_count_schema_match _ _ _ Hm) as Hs.
  repeat split; try assumption.
  intros Hge. unfold submit_word_target. rewrite Hs, Hge, Hn. reflexivity.
Qed.

Lemma word_count_inverted_range_witness :
  normalizeWordCount "300-100" = Fin 50 /\
  word_count_schema "300-100" = ge (parseInt "300") (Fin 50) /\
  (ge (parseInt "300") (Fin 50) = true ->
   submit_word_target "300-100" = Some (Fin 50)).
Proof.
  apply (word_count_inverted_range "300-100" "300" "100");
    vm_compute; reflexivity.
Defined.

(** C3 as stated fails: ["300-100"] has [min > max], passes validation and
    is normalised to the target 50. *)
Lemma word_count_inverted_range_counterexample :
  match_range "300-100" = Some ("300", "100") /\
  digits_value "300" > digits_value "100" /\
  word_count_schema "300-100" = true /\
  submit_word_target "300-100" = Some (Fin 50).
Proof. repeat split; vm_compute; reflexivity. Qed.

Lemma Math_max_50 (x : number) :
  x <> NaN ->
  (exists z, Math_max (Fin 50) x = Fin z /\ 50 <= z) \/
  Math_max (Fin 50) x = Infinity.
Proof.
  destruct x as [z| |]; intros Hx; [left|right|congruence].
  - exists (Z.max 50 z). split; [reflexivity|lia].
  - reflexivity.
Qed.

(** C8 (amended): [normalizeWordCount] is total and its result is never
    below 50 and never [NaN]: it is an integer that is at least 50, or
    [Infinity]. It is an integer whenever both bounds are below [2^1021]
    (every numeral of at most 307 digits is), and it is 50 on every string
    that does not match the pattern. *)
Theorem normalizeWordCount_total_bounded (s : string) :
  ((exists z, normalizeWordCount s = Fin z /\ 50 <= z) \/
   normalizeWordCount s = Infinity) /\
  (forall a b, match_range s = Some (a, b) ->
     digits_value a < 2 ^ 1021 -> digits_value b < 2 ^ 1021 ->
     exists z, normalizeWordCount s = Fin z /\ 50 <= z) /\
  (match_range s = None -> normalizeWordCount s = Fin 50).
Proof.
  assert (Hfifty : exists z, Fin 50 = Fin z /\ 50 <= z)
    by (exists 50; split; [reflexivity|lia]).
  split; [|split].
  - destruct (match_range s) as [[a b]|] eqn:Hm.
    + rewrite (normalizeWordCount_match _ _ _ Hm).
      destruct (match_range_inv _ _ _ Hm) as (_ & Ha & Hna & Hb & Hnb).
      rewrite (parseInt_digits a Ha Hna), (parseInt_digits b Hb Hnb).
      destruct (_ || _); [left; assumption|].
      apply Math_max_50.
      destruct (of_integer_cases (digits_value a)) as [[x ->]| ->];
        destruct (of_integer_cases (digits_value b)) as [[y ->]| ->];
        cbn [add Math_floor_half]; try discriminate.
      destruct (of_integer_cases (x + y)) as [[m ->]| ->]; discriminate.
    + unfold normalizeWordCount. rewrite Hm. left; assumption.
  - intros a b Hm Hba Hbb.
    rewrite (normalizeWordCount_match _ _ _ Hm).
    destruct (match_range_inv _ _ _ Hm) as (_ & Ha & Hna & Hb & Hnb).
    rewrite (parseInt_digits a Ha Hna), (parseInt_digits b Hb Hnb).
    destruct (_ || _); [assumption|].
    pose proof (digits_value_nonneg a Ha) as H0a.
    pose proof (digits_value_nonneg b Hb) as H0b.
    assert (Hpow : 2 ^ emax = 8 * 2 ^ 1021).
    { unfold emax. change 1024 with (3 + 1021).
      rewrite Z.pow_add_r by lia. reflexivity. }
    assert (Hpos : 0 < 2 ^ 1021) by (apply Z.pow_pos_nonneg; lia).
    destruct (of_integer_finite (digits_value a)) as (x & -> & Hx); [lia..|].
    destruct (of_integer_finite (digits_value b)) as (y & -> & Hy); [lia..|].
    cbn [add].
    destruct (of_integer_finite (x + y)) as (m & -> & Hmxy); [lia..|].
    cbn [Math_floor_half Math_max].
    eexists; split; [reflexivity|lia].
  - intros Hm. unfold normalizeWordCount. rewrite Hm. reflexivity.
Qed.

Lemma normalizeWordCount_total_bounded_witness :
  exists z, normalizeWordCount "100-300" = Fin z /\ 50 <= z.
Proof.
  apply (proj1 (proj2 (normalizeWordCount_total_bounded "100-300")) "100" "300").
  - reflexivity.
  - vm_compute; reflexivity.
  - vm_compute; reflexivity.
Defined.

(** C8 as stated fails: a bound of 310 digits is read as [Infinity], and
    [Infinity], which is not an integer, is returned. *)
Lemma normalizeWordCount_total_bounded_counterexample :
  normalizeWordCount ("50-" +:+ power_of_ten 309) = Infinity /\
  ~ exists z, normalizeWordCount ("50-" +:+ power_of_ten 309) = Fin z /\ 50 <= z.
Proof.
  assert (H : normalizeWordCount ("50-" +:+ power_of_ten 309) = Infinity)
    by (vm_compute; reflexivity).
  split; [assumption|]. rewrite H. intros (z & Hz & _). discriminate.
Qed.

(** ** Tone *)

Ltac each_char c := destruct c as [[] [] [] [] [] [] [] []]; reflexivity.

Lemma lower_char_idempotent (c : ascii) : lower_char (lower_char c) = lower_char c.
Proof. each_char c. Qed.

(** Lower-casing neither makes nor removes white space. *)
Lemma is_white_space_lower_char (c : ascii) :
  is_white_space (lower_char c) = is_white_space c.
Proof. each_char c. Qed.

Lemma toLowerCase_idempotent (s : string) :
  toLowerCase (toLowerCase s) = toLowerCase s.
Proof.
  induction s as [|c s IH]; simpl; [reflexivity|].
  rewrite lower_char_idempotent, IH. reflexivity.
Qed.

Lemma trimStart_toLowerCase (s : string) :
  trimStart (toLowerCase s) = toLowerCase (trimStart s).
Proof.
  induction s as [|c s IH]; simpl; [reflexivity|].
  rewrite is_white_space_lower_char.
  destruct (is_white_space c); [assumption|reflexivity].
Qed.

Lemma trimEnd_toLowerCase (s : string) :
  trimEnd (toLowerCase s) = toLowerCase (trimEnd s).
Proof.
  induction s as [|c s IH]; simpl; [reflexivity|].
  rewrite IH, is_white_space_lower_char.
  destruct (trimEnd s); simpl; [|reflexivity].
  destruct (is_white_space c); reflexivity.
Qed.

Lemma trim_toLowerCase (s : string) : trim (toLowerCase s) = toLowerCase (trim s).
Proof. unfold trim. rewrite trimStart_toLowerCase. apply trimEnd_toLowerCase. Qed.

Lemma trimStart_starts_clean (s : string) : starts_clean (trimStart s).
Proof.
  induction s as [|c s IH]; simpl; [exact I|].
  destruct (is_white_space c) eqn:Hc; [assumption|exact Hc].
Qed.

Lemma trimStart_fixed (s : string) : starts_clean s -> trimStart s = s.
Proof. destruct s as [|c s]; simpl; [reflexivity|]. intros ->. reflexivity. Qed.

Lemma trimEnd_starts_clean (s : string) : starts_clean s -> starts_clean (trimEnd s).
Proof.
  destruct s as [|c s]; simpl; [trivial|]. intros Hc.
  destruct (trimEnd s); [rewrite Hc|]; exact Hc.
Qed.

Lemma trimEnd_idempotent (s : string) : trimEnd (trimEnd s) = trimEnd s.
Proof.
  induction s as [|c s IH]; simpl; [reflexivity|].
  destruct (trimEnd s) as [|d t] eqn:Ht.
  - destruct (is_white_space c) eqn:Hc; simpl; [reflexivity|].
    rewrite Hc. reflexivity.
  - change (trimEnd (String c (String d t)))
      with (match trimEnd (String d t) with
            | EmptyString =>
                if is_white_space c then EmptyString else String c EmptyString
            | u => String c u
            end).
    rewrite IH. reflexivity.
Qed.

Lemma trim_idempotent (s : string) : trim (trim s) = trim s.
Proof.
  unfold trim.
  rewrite (trimStart_fixed (trimEnd (trimStart s))).
  - apply trimEnd_idempotent.
  - apply trimEnd_starts_clean, trimStart_starts_clean.
Qed.

(** C9: [normalizeTone] is idempotent. *)
Theorem normalizeTone_idempotent (s : string) :
  normalizeTone (normalizeTone s) = normalizeTone s.
Proof.
  unfold normalizeTone.
  rewrite <- trim_toLowerCase, toLowerCase_idempotent.
  apply trim_idempotent.
Qed.

Lemma tone_schema_In (tone : string) : tone_schema tone = true <-> In tone TONES.
Proof.
  unfold tone_schema. rewrite existsb_exists. split.
  - intros (t & Hin & Heq). apply String.eqb_eq in Heq. subst. assumption.
  - intros Hin. exists tone. split; [assumption|apply String.eqb_refl].
Qed.

(** C4 (amended): the schema accepts a tone exactly when the string as
    given is one of the six values of the enumeration; it does not
    normalise. [normalizeTone] is a separate function, which leaves every
    accepted tone as it is. *)
Theorem tone_schema_exact (tone : string) :
  (tone_schema tone = true <-> In tone TONES) /\
  (tone_schema tone = true -> normalizeTone tone = tone).
Proof.
  split; [apply tone_schema_In|].
  intros Hin%tone_schema_In. simpl in Hin.
  repeat (destruct Hin as [<-|Hin]; [reflexivity|]). destruct Hin.
Qed.

Lemma tone_schema_exact_witness :
  In "casual" TONES /\ normalizeTone "casual" = "casual".
Proof.
  split.
  - apply (proj1 (tone_schema_exact "casual")). reflexivity.
  - apply (proj2 (tone_schema_exact "casual")). reflexivity.
Defined.

(** C4 as stated fails: [" Professional "] normalises to a member of the
    enumeration and is refused by the schema all the same. *)
Lemma tone_schema_exact_counterexample :
  normalizeTone " Professional " = "professional" /\
  In (normalizeTone " Professional ") TONES /\
  tone_schema " Professional " = false.
Proof.
  split; [reflexivity|]. split; [|reflexivity].
  left. reflexivity.
Qed.

(** ** The streaming client *)

Lemma append_cons (x : ascii) (a b : string) :
  String x a +:+ b = String x (a +:+ b).
Proof. reflexivity. Qed.

Lemma append_assoc (a b c : string) : (a +:+ b) +:+ c = a +:+ (b +:+ c).
Proof.
  induction a as [|x a IH]; [reflexivity|].
  rewrite !append_cons, IH. reflexivity.
Qed.

Lemma append_empty_r (a : string) : a +:+ "" = a.
Proof.
  induction a as [|x a IH]; [reflexivity|].
  rewrite append_cons, IH. reflexivity.
Qed.

Lemma callbacks_app (o1 o2 : list action) :
  callbacks (o1 ++ o2) = callbacks o1 ++ callbacks o2.
Proof. apply List.filter_app. Qed.

Lemma terminals_app (o1 o2 : list action) :
  terminals (o1 ++ o2) = terminals o1 ++ terminals o2.
Proof. apply List.filter_app. Qed.

Lemma terminals_callbacks (out : list action) :
  terminals (callbacks out) = terminals out.
Proof.
  induction out as [|a out IH]; [reflexivity|].
  destruct a; simpl; rewrite ?IH; reflexivity.
Qed.

Section StreamProperties.

Variable JSON_parse : string -> option json.
Variable Number_toString : spec_float -> string.

Local Abbreviation onmessage := (Stream.onmessage JSON_parse Number_toString).
Local Abbreviation dispatch := (Stream.dispatch JSON_parse Number_toString).
Local Abbreviation run := (Stream.run JSON_parse Number_toString).
Local Abbreviation generateContentStream :=
  (Stream.generateContentStream JSON_parse Number_toString).
Local Abbreviation frame_content := (Stream.frame_content JSON_parse Number_toString).
Local Abbreviation contents := (Stream.contents JSON_parse Number_toString).
Local Abbreviation concatenation := (Stream.concatenation JSON_parse Number_toString).

Lemma run_cons (ev : event) (evs : list event) (st : stream) :
  run (ev :: evs) st =
    ((run evs (dispatch ev st).1).1,
     (dispatch ev st).2 ++ (run evs (dispatch ev st).1).2).
Proof.
  simpl. destruct (dispatch ev st) as [st1 o1]. simpl.
  destruct (run evs st1) as [st2 o2]. reflexivity.
Qed.

Lemma run_app (e1 e2 : list event) (st : stream) :
  run (e1 ++ e2) st =
    ((run e2 (run e1 st).1).1, (run e1 st).2 ++ (run e2 (run e1 st).1).2).
Proof.
  revert st. induction e1 as [|ev e1 IH]; intros st.
  - simpl. destruct (run e2 st). reflexivity.
  - rewrite <- app_comm_cons, !run_cons, IH. simpl.
    rewrite app_assoc. reflexivity.
Qed.

(** A frame other than the sentinel either bears content, which is
    appended and handed to [onChunk], or changes nothing and reaches no
    callback. *)
Lemma onmessage_frame (data : string) (st : stream) :
  data <> DONE ->
  match frame_content data with
  | Some (content, text) =>
      onmessage data st =
        (mkStream (closed st) (fullContent st +:+ text), [onChunk content])
  | None => (onmessage data st).1 = st /\ callbacks (onmessage data st).2 = []
  end.
Proof.
  intros Hd. unfold Stream.onmessage, Stream.frame_content.
  destruct (String.eqb_spec data DONE) as [|_]; [contradiction|].
  destruct (JSON_parse data) as [parsed|]; [|split; reflexivity].
  destruct parsed as [|b|x|s|items|fields]; simpl; try (split; reflexivity).
  destruct (own_property "content" fields) as [content|]; [|split; reflexivity].
  destruct (truthy content) eqn:Ht;
    destruct (ToString Number_toString content);
    first [reflexivity | split; reflexivity].
Qed.

(** While the source is open, a run of frames appends their contents in
    order, hands each to [onChunk], and leaves the source open. *)
Lemma run_frames (frames : list string) (st : stream) :
  closed st = false ->
  Forall (fun data => data <> DONE) frames ->
  (run (map Message frames) st).1
    = mkStream false (fullContent st +:+ concatenation frames) /\
  callbacks (run (map Message frames) st).2
    = map (fun c => onChunk c.1) (contents frames).
Proof.
  intros Hopen Hframes. revert st Hopen.
  induction Hframes as [|data frames Hd _ IH]; intros st Hopen.
  - simpl. unfold Stream.concatenation. simpl. rewrite append_empty_r.
    destruct st; simpl in *; subst. split; reflexivity.
  - change (map Message (data :: frames)) with (Message data :: map Message frames).
    rewrite run_cons. cbn [Stream.dispatch]. rewrite Hopen.
    cbn [fst snd]. rewrite callbacks_app.
    pose proof (onmessage_frame data st Hd) as Hm.
    unfold Stream.concatenation, Stream.contents in *. cbn [omap list_omap].
    destruct (frame_content data) as [[content text]|].
    + rewrite Hm. cbn [fst snd].
      destruct (IH (mkStream (closed st) (fullContent st +:+ text)) Hopen)
        as [-> ->].
      cbn [fullContent map fold_right snd fst]. rewrite append_assoc.
      split; reflexivity.
    + destruct Hm as [-> ->]. destruct (IH st Hopen) as [-> ->].
      split; reflexivity.
Qed.

(** A closed source stays as it is and reaches no callback. *)
Lemma run_closed (evs : list event) (st : stream) :
  closed st = true ->
  (run evs st).1 = st /\ callbacks (run evs st).2 = [].
Proof.
  intros Hc. induction evs as [|ev evs [IH1 IH2]]; [split; reflexivity|].
  rewrite run_cons. cbn [fst snd].
  assert (Hd : (dispatch ev st).1 = st /\ callbacks (dispatch ev st).2 = []).
  { destruct ev; cbn [Stream.dispatch]; rewrite ?Hc; try (split; reflexivity).
    destruct st; simpl in *; subst. split; reflexivity. }
  destruct Hd as [Hd1 Hd2].
  rewrite callbacks_app, Hd1, Hd2, IH1, IH2. split; reflexivity.
Qed.

(** ** Terminal callbacks *)

Lemma onmessage_terminals (data : string) (st : stream) :
  data <> DONE -> terminals (onmessage data st).2 = [].
Proof.
  intros Hd. pose proof (onmessage_frame data st Hd) as Hm.
  destruct (frame_content data) as [[content text]|].
  - rewrite Hm. reflexivity.
  - destruct Hm as [_ Hm]. rewrite <- terminals_callbacks, Hm. reflexivity.
Qed.

(** One event: nothing terminal happens, or the open source is closed
    and exactly one terminal callback is made. *)
Lemma dispatch_terminals (ev : event) (st : stream) :
  (terminals (dispatch ev st).2 = [] /\
   (closed st = true -> closed (dispatch ev st).1 = true)) \/
  (closed st = false /\ closed (dispatch ev st).1 = true /\
   length (terminals (dispatch ev st).2) = 1%nat).
Proof.
  destruct ev as [data| |]; cbn [Stream.dispatch].
  - destruct (closed st) eqn:Hc; [left; split; [reflexivity|auto]|].
    destruct (String.eqb_spec data DONE) as [->|Hd].
    + right. repeat split; reflexivity.
    + left. split; [apply onmessage_terminals; assumption|discriminate].
  - destruct (closed st) eqn:Hc; [left; split; [reflexivity|auto]|].
    right. repeat split; reflexivity.
  - left. split; reflexivity.
Qed.

Lemma run_terminals (evs : list event) (st : stream) :
  (closed st = true -> terminals (run evs st).2 = []) /\
  (closed (run evs st).1 = false -> terminals (run evs st).2 = []) /\
  (length (terminals (run evs st).2) <= 1)%nat.
Proof.
  revert st. induction evs as [|ev evs IH]; intros st.
  - simpl. repeat split; auto.
  - rewrite run_cons. cbn [fst snd]. rewrite terminals_app, length_app.
    destruct (IH (dispatch ev st).1) as (IHc & IHo & IHle).
    destruct (dispatch_terminals ev st) as [[Ht Hmono]|(Hopen & Hcl & Hone)].
    + rewrite Ht. cbn [app length]. repeat split; auto.
    + rewrite (IHc Hcl) in *. rewrite app_nil_r, Hone.
      repeat split; [congruence| |simpl; lia].
      intros Hopen'. destruct (run_closed evs _ Hcl) as [Hst _].
      rewrite Hst in Hopen'. congruence.
Qed.

(** C5: a stream of frames followed by the sentinel [[DONE]] closes the
    source; the callbacks made are one [onChunk] per content-bearing
    frame, in the order of the frames, and then [onComplete], once, with
    the concatenation of the contents in that order. Whatever arrives
    after the sentinel reaches no callback. *)
Theorem stream_done_completes (frames : list string) (later : list event) :
  Forall (fun data => data <> DONE) frames ->
  let result := generateContentStream (map Message frames ++ Message DONE :: later) in
  closed result.1 = true /\
  fullContent result.1 = concatenation frames /\
  In EventSource_close result.2 /\
  callbacks result.2 =
    map (fun c => onChunk c.1) (contents frames)
    ++ [onComplete (concatenation frames)] /\
  chunks result.2 = map fst (contents frames) /\
  terminals result.2 = [onComplete (concatenation frames)].
Proof.
  intros Hframes result.
  destruct (run_frames frames (mkStream false "") eq_refl Hframes) as [Hst Hcb].
  cbn [fullContent] in Hst. change ("" +:+ concatenation frames)
    with (concatenation frames) in Hst.
  set (done := mkStream true (concatenation frames)).
  destruct (run_closed later done eq_refl) as [Hlst Hlcb].
  assert (Hres : result =
    ((run later done).1,
     (run (map Message frames) (mkStream false "")).2
     ++ [EventSource_close; onComplete (concatenation frames)]
     ++ (run later done).2)).
  { unfold result, Stream.generateContentStream.
    rewrite run_app, run_cons, Hst. reflexivity. }
  assert (Hcbs : callbacks result.2 =
    map (fun c => onChunk c.1) (contents frames)
    ++ [onComplete (concatenation frames)]).
  { rewrite Hres. cbn [snd]. rewrite !callbacks_app, Hcb, Hlcb. reflexivity. }
  split; [rewrite Hres; cbn [fst]; rewrite Hlst; reflexivity|].
  split; [rewrite Hres; cbn [fst]; rewrite Hlst; reflexivity|].
  split; [rewrite Hres; cbn [snd]; apply in_or_app; right; left; reflexivity|].
  split; [exact Hcbs|].
  assert (Hmap : forall l : list (json * string),
    chunks (map (fun c => onChunk c.1) l ++ [onComplete (concatenation frames)])
      = map fst l /\
    terminals (map (fun c => onChunk c.1) l ++ [onComplete (concatenation frames)])
      = [onComplete (concatenation frames)]).
  { induction l as [|c l [IH1 IH2]]; [split; reflexivity|].
    split; simpl; [f_equal; exact IH1|exact IH2]. }
  destruct (Hmap (contents frames)) as [Hch Hte].
  split.
  - rewrite <- Hch, <- Hcbs. clear.
    induction result.2 as [|a out IH]; [reflexivity|].
    destruct a; simpl; rewrite ?IH; reflexivity.
  - rewrite <- terminals_callbacks, Hcbs. exact Hte.
Qed.

(** A frame other than the sentinel leaves an open source open. *)
Lemma onmessage_open (data : string) (st : stream) :
  data <> DONE -> closed (onmessage data st).1 = closed st.
Proof.
  intros Hd. pose proof (onmessage_frame data st Hd) as Hm.
  destruct (frame_content data) as [[content text]|].
  - rewrite Hm. reflexivity.
  - destruct Hm as [-> _]. reflexivity.
Qed.

(** A stream in which an error occurs and which the caller does not
    cancel makes exactly one terminal callback. *)
Lemma run_error_one_terminal (evs : list event) (st : stream) :
  closed st = false -> In Error evs -> ~ In Cancel evs ->
  length (terminals (run evs st).2) = 1%nat.
Proof.
  revert st. induction evs as [|ev evs IH]; intros st Hopen Herr Hcan.
  - destruct Herr.
  - rewrite run_cons. cbn [fst snd]. rewrite terminals_app, length_app.
    assert (Hcan' : ~ In Cancel evs) by (intros Hin; apply Hcan; right; exact Hin).
    assert (Hclosing : forall st' out,
      dispatch ev st = (st', out) -> closed st' = true ->
      length (terminals out) = 1%nat ->
      (length (terminals (dispatch ev st).2)
       + length (terminals (run evs (dispatch ev st).1).2) = 1)%nat).
    { intros st' out -> Hcl Hone. cbn [fst snd].
      destruct (run_terminals evs st') as (Hnone & _ & _).
      rewrite (Hnone Hcl), Hone. reflexivity. }
    destruct ev as [data| |].
    + cbn [Stream.dispatch] in *. rewrite Hopen in *.
      destruct (String.eqb_spec data DONE) as [->|Hd].
      * eapply Hclosing; [reflexivity..|reflexivity].
      * rewrite (onmessage_terminals data st Hd). cbn [length Nat.add].
        apply IH; [|destruct Herr as [Heq|Hin]; [discriminate|exact Hin]|exact Hcan'].
        rewrite (onmessage_open data st Hd). exact Hopen.
    + cbn [Stream.dispatch] in *. rewrite Hopen in *.
      eapply Hclosing; [reflexivity..|reflexivity].
    + exfalso. apply Hcan. left. reflexivity.
Qed.

(** C6: the error handler closes the source and then reports the error;
    no run of the client makes more than one terminal callback (so never
    both [onComplete] and [onError], and neither twice), and a stream in
    which an error occurs, and which the caller does not cancel, makes
    exactly one. *)
Theorem stream_error_terminal :
  (forall evs, (length (terminals (generateContentStream evs).2) <= 1)%nat) /\
  (forall pre post,
     closed (generateContentStream pre).1 = false ->
     exists rest,
       (generateContentStream (pre ++ Error :: post)).2 =
         (generateContentStream pre).2
         ++ EventSource_close :: onError "Stream connection error" :: rest /\
       callbacks rest = [] /\
       terminals (generateContentStream (pre ++ Error :: post)).2 =
         [onError "Stream connection error"]) /\
  (forall evs,
     In Error evs -> ~ In Cancel evs ->
     length (terminals (generateContentStream evs).2) = 1%nat).
Proof.
  unfold Stream.generateContentStream.
  split; [intros evs; apply run_terminals|].
  split.
  - intros pre post Hopen.
    rewrite run_app, run_cons. cbn [Stream.dispatch]. rewrite Hopen.
    cbn [fst snd Stream.onerror].
    set (st := mkStream true _).
    destruct (run_closed post st eq_refl) as [_ Hcb].
    exists (run post st).2. split; [reflexivity|]. split; [exact Hcb|].
    destruct (run_terminals pre (mkStream false "")) as (_ & Hno & _).
    rewrite terminals_app, (Hno Hopen). cbn [app].
    change (terminals (?a :: ?b :: ?l)) with (b :: terminals l).
    rewrite <- terminals_callbacks, Hcb. reflexivity.
  - intros evs Herr Hcan. apply run_error_one_terminal; [reflexivity|assumption..].
Qed.

(** C10: a frame that is not the sentinel and whose data is not valid
    JSON, or is an object without a [content] field, is skipped: the
    state, and with it the accumulated content, is unchanged, no
    callback is made for it, and the frames after it are processed as
    if it had not been there. *)
Theorem stream_skips_frame (data : string) (st : stream) (later : list event) :
  data <> DONE ->
  (JSON_parse data = None \/
   exists fields, JSON_parse data = Some (JObject fields) /\
                  own_property "content" fields = None) ->
  (dispatch (Message data) st).1 = st /\
  callbacks (dispatch (Message data) st).2 = [] /\
  (run (Message data :: later) st).1 = (run later st).1 /\
  callbacks (run (Message data :: later) st).2 = callbacks (run later st).2.
Proof.
  intros Hd Hskip.
  assert (Hone : (dispatch (Message data) st).1 = st /\
                 callbacks (dispatch (Message data) st).2 = []).
  { cbn [Stream.dispatch]. destruct (closed st); [split; reflexivity|].
    pose proof (onmessage_frame data st Hd) as Hm.
    assert (Hnone : frame_content data = None).
    { unfold Stream.frame_content.
      destruct Hskip as [-> | (fields & -> & ->)]; reflexivity. }
    rewrite Hnone in Hm. exact Hm. }
  destruct Hone as [H1 H2]. rewrite run_cons. cbn [fst snd].
  rewrite callbacks_app, H1, H2. repeat split; reflexivity.
Qed.

End StreamProperties.

Lemma stream_done_completes_witness :
  callbacks (generateContentStream parse_frame no_numbers
    (map Message [content_frame "Hel"; "oops"; content_frame "lo"]
     ++ Message DONE :: [Message (content_frame "!"); Error])).2
  = [onChunk (JString "Hel"); onChunk (JString "lo"); onComplete "Hello"].
Proof.
  assert (Hframes : Forall (fun data => data <> DONE)
            [content_frame "Hel"; "oops"; content_frame "lo"])
    by (repeat constructor; discriminate).
  destruct (stream_done_completes parse_frame no_numbers _
              [Message (content_frame "!"); Error] Hframes)
    as (_ & _ & _ & Hcb & _).
  exact Hcb.
Defined.

Lemma stream_error_terminal_witness :
  terminals (generateContentStream parse_frame no_numbers
    ([Message (content_frame "Hel")] ++ Error :: [Message DONE; Error])).2
  = [onError "Stream connection error"].
Proof.
  destruct (stream_error_terminal parse_frame no_numbers) as (_ & Herr & _).
  destruct (Herr [Message (content_frame "Hel")] [Message DONE; Error] eq_refl)
    as (rest & _ & _ & Hterm).
  exact Hterm.
Defined.

Lemma stream_skips_frame_witness :
  callbacks (run parse_frame no_numbers
    (Message "oops" :: [Message (content_frame "lo"); Message DONE])
    (mkStream false "Hel")).2
  = [onChunk (JString "lo"); onComplete "Hello"].
Proof.
  destruct (stream_skips_frame parse_frame no_numbers "oops"
              (mkStream false "Hel")
              [Message (content_frame "lo"); Message DONE])
    as (_ & _ & _ & Hcb).
  - discriminate.
  - left. reflexivity.
  - rewrite Hcb. reflexivity.
Defined.

(** ** Request coalescing in the response cache *)

Module ResponseCacheProperties.
Import ResponseCache.
Section Coalescing.

Context {fingerprint : Type} `{Countable fingerprint}.
Context {response : Type}.

Implicit Types (c : @cache fingerprint _ _ response).
Implicit Types (fp : fingerprint) (ev : @cache_event fingerprint response).

Lemma get_entries now fp c c' :
  entries c !! fp = entries c' !! fp -> get now fp c = get now fp c'.
Proof. unfold get. intros ->. reflexivity. Qed.

Lemma results_for_map_other fp fp' (result : option response) (l : list caller) :
  fp' ≠ fp ->
  filter (fun d : caller * fingerprint * option response => d.1.2 = fp)
         (map (fun who => (who, fp', result)) l) = [].
Proof.
  intros Hne. induction l as [|who l IH]; [reflexivity|].
  simpl. rewrite filter_cons_False by (simpl; congruence). exact IH.
Qed.

(** An event on another fingerprint leaves the view of [fp] alone. *)
Lemma step_other now ev fp c :
  event_fingerprint ev ≠ fp -> view fp (step now ev c) = view fp c.
Proof.
  intros Hne. unfold view, calls_for, results_for.
  destruct ev as [who fp'|fp' result]; simpl in Hne; simpl.
  - destruct (get now fp' c) as [r|]; simpl.
    + rewrite filter_app, filter_cons_False by (simpl; congruence).
      rewrite filter_nil, app_nil_r. reflexivity.
    + destruct (in_flight c !! fp') as [waiting|]; simpl.
      * rewrite lookup_insert_ne by assumption. reflexivity.
      * rewrite lookup_insert_ne by assumption.
        rewrite filter_app, filter_cons_False by congruence.
        rewrite filter_nil, app_nil_r. reflexivity.
  - destruct (in_flight c !! fp') as [waiting|]; [|reflexivity]. simpl.
    rewrite lookup_delete_ne by assumption.
    rewrite filter_app, results_for_map_other, app_nil_r by assumption.
    destruct result as [r|]; simpl; [|reflexivity].
    rewrite lookup_insert_ne by assumption. reflexivity.
Qed.

Lemma run_others (sched : list (Z * cache_event)) fp c :
  Forall (fun e : Z * cache_event => event_fingerprint e.2 ≠ fp) sched ->
  view fp (run_schedule sched c) = view fp c.
Proof.
  intros Hs. revert c. induction Hs as [|[now ev] sched Hne _ IH]; intros c.
  - reflexivity.
  - simpl. rewrite IH. apply step_other. exact Hne.
Qed.

Lemma run_schedule_app (s1 s2 : list (Z * cache_event)) c :
  run_schedule (s1 ++ s2) c = run_schedule s2 (run_schedule s1 c).
Proof.
  revert c. induction s1 as [|[now ev] s1 IH]; intros c; [reflexivity|].
  simpl. apply IH.
Qed.

(** C7: two requests for the same fingerprint that both arrive before
    the provider call for it settles, with no live entry for it and no
    call under way at the start, and with any traffic on other
    fingerprints in between: the provider is invoked once for the
    fingerprint, and both callers are handed the one result of that
    call. *)
Theorem concurrent_requests_coalesce
    c0 fp (who1 who2 : caller) (t1 t2 t3 : Z) (result : option response)
    (mid1 mid2 : list (Z * cache_event)) :
  get t1 fp c0 = None ->
  get t2 fp c0 = None ->
  in_flight c0 !! fp = None ->
  Forall (fun e => event_fingerprint e.2 ≠ fp) mid1 ->
  Forall (fun e => event_fingerprint e.2 ≠ fp) mid2 ->
  let c := run_schedule
             ((t1, Request who1 fp) :: mid1
              ++ (t2, Request who2 fp) :: mid2
              ++ [(t3, Settled fp result)]) c0 in
  calls_for fp c = calls_for fp c0 ++ [fp] /\
  results_for fp c =
    results_for fp c0 ++ [(who1, fp, result); (who2, fp, result)] /\
  in_flight c !! fp = None.
Proof.
  intros Hget1 Hget2 Hfree Hmid1 Hmid2 c.
  (* the first request misses, marks the fingerprint and calls the provider *)
  set (c1 := step t1 (Request who1 fp) c0).
  assert (Hc1 : view fp c1 =
    (entries c0 !! fp, Some [who1], calls_for fp c0 ++ [fp], results_for fp c0)).
  { unfold c1, view, calls_for, results_for. simpl. rewrite Hget1, Hfree. simpl.
    rewrite lookup_insert_eq, filter_app, filter_cons_True by reflexivity.
    reflexivity. }
  (* traffic on other fingerprints *)
  set (c2 := run_schedule mid1 c1).
  assert (Hc2 : view fp c2 = view fp c1) by (apply run_others; assumption).
  rewrite Hc1 in Hc2. injection Hc2 as He2 Hf2 Hp2 Hd2.
  (* the second request misses as well and attaches to the marker *)
  set (c3 := step t2 (Request who2 fp) c2).
  assert (Hc3 : view fp c3 =
    (entries c0 !! fp, Some [who1; who2], calls_for fp c0 ++ [fp],
     results_for fp c0)).
  { unfold c3, view, calls_for, results_for in *. simpl.
    rewrite (get_entries t2 fp c2 c0 He2), Hget2, Hf2. simpl.
    rewrite lookup_insert_eq, Hp2, Hd2, He2. reflexivity. }
  set (c4 := run_schedule mid2 c3).
  assert (Hc4 : view fp c4 = view fp c3) by (apply run_others; assumption).
  rewrite Hc3 in Hc4. injection Hc4 as He4 Hf4 Hp4 Hd4.
  (* the call settles: everyone attached gets its result *)
  assert (Hc : c = step t3 (Settled fp result) c4).
  { unfold c, c4, c3, c2, c1. simpl.
    rewrite run_schedule_app. simpl. rewrite run_schedule_app. reflexivity. }
  rewrite Hc. unfold calls_for, results_for in *.
  unfold step. rewrite Hf4. cbn [provider_calls delivered in_flight].
  split; [exact Hp4|]. split; [|apply lookup_delete_eq].
  rewrite filter_app, Hd4. f_equal. cbn [map].
  rewrite !filter_cons_True by reflexivity. reflexivity.
Qed.

End Coalescing.
End ResponseCacheProperties.

(** Two callers ask for the fingerprint ["f1"] while a third asks for
    another one; the provider is called once for ["f1"] and both callers
    receive its answer. *)
Lemma concurrent_requests_coalesce_witness :
  let c := ResponseCache.run_schedule
             [(0, ResponseCache.Request 1%nat "f1");
              (1, ResponseCache.Request 7%nat "f2");
              (2, ResponseCache.Request 2%nat "f1");
              (5, ResponseCache.Settled "f1" (Some "text"))]
             (ResponseCache.empty_cache (response := string)) in
  ResponseCache.calls_for "f1" c = ["f1"] /\
  ResponseCache.results_for "f1" c
    = [(1%nat, "f1", Some "text"); (2%nat, "f1", Some "text")] /\
  ResponseCache.in_flight c !! "f1" = None.
Proof.
  apply (ResponseCacheProperties.concurrent_requests_coalesce
           ResponseCache.empty_cache "f1" 1%nat 2%nat 0 2 5 (Some "text")
           [(1, ResponseCache.Request 7%nat "f2")] []).
  - reflexivity.
  - reflexivity.
  - reflexivity.
  - repeat constructor. discriminate.
  - constructor.
Defined.

(** * Further properties of the front end *)

(** ** Validation and normalisation of the word count *)

(** Rounding does not take a value below [2^53]. *)
Lemma round_nearest_even_ge (z : Z) :
  2 ^ prec <= z -> 2 ^ prec <= round_nearest_even z.
Proof.
  intros Hz. unfold round_nearest_even.
  destruct (Z.ltb_spec z (2 ^ prec)) as [Hlt|_]; [lia|]. cbv zeta.
  assert (Hp : 0 < 2 ^ prec) by (apply Z.pow_pos_nonneg; unfold prec; lia).
  assert (Hz0 : 0 < z) by lia.
  pose proof (Z.log2_spec z Hz0) as [Hlo _].
  assert (Hlog : prec <= Z.log2 z) by (apply Z.log2_le_pow2; lia).
  set (e := Z.log2 z - (prec - 1)) in *.
  assert (He : 0 < e) by (unfold e; lia).
  rewrite Z.shiftr_div_pow2 by lia.
  set (q := z / 2 ^ e).
  assert (H2e : 0 < 2 ^ e) by (apply Z.pow_pos_nonneg; lia).
  assert (Hsplit : 2 ^ Z.log2 z = 2 ^ (prec - 1) * 2 ^ e).
  { rewrite <- Z.pow_add_r by (unfold prec; lia). f_equal. unfold e. lia. }
  assert (Hq : 2 ^ (prec - 1) <= q).
  { unfold q. apply Z.div_le_lower_bound; lia. }
  assert (H52 : 0 < 2 ^ (prec - 1)) by (apply Z.pow_pos_nonneg; unfold prec; lia).
  assert (Htwo : 2 ^ prec = 2 ^ (prec - 1) * 2).
  { change prec with (52 + 1) at 1. rewrite Z.pow_add_r by lia. reflexivity. }
  assert (H2e2 : 2 <= 2 ^ e).
  { change 2 with (2 ^ 1) at 1. apply Z.pow_le_mono_r; lia. }
  assert (Hq' : forall q', q <= q' -> 2 ^ prec <= Z.shiftl q' e).
  { intros q' Hle. rewrite Z.shiftl_mul_pow2 by lia. rewrite Htwo. nia. }
  repeat match goal with |- context [if ?b then _ else _] => destruct b end;
    apply Hq'; lia.
Qed.

(** The test [min >= 50] on the parsed minimum is the test on the number
    that the digits write. *)
Lemma parseInt_ge_50 (a : string) :
  all_digits a = true -> nonempty a = true ->
  ge (parseInt a) (Fin 50) = true <-> 50 <= digits_value a.
Proof.
  intros Ha Hna. rewrite (parseInt_digits a Ha Hna).
  assert (H50 : 50 < 2 ^ prec) by (vm_compute; reflexivity).
  destruct (Z.lt_ge_cases (digits_value a) (2 ^ prec)) as [Hlt|Hge].
  - rewrite of_integer_exact by assumption. unfold ge. apply Z.leb_le.
  - split; [lia|intros _].
    pose proof (round_nearest_even_ge _ Hge) as Hr.
    unfold of_integer. cbv zeta.
    destruct (round_nearest_even (digits_value a) <? 2 ^ emax); [|reflexivity].
    unfold ge. apply Z.leb_le. lia.
Qed.

(** X1: the word count check accepts exactly the strings made of a run of
    digits, a hyphen and a run of digits, in which the first number is at
    least 50; nothing is asked of the second number. *)
Theorem word_count_schema_accepts (s : string) :
  word_count_schema s = true <->
  exists a b,
    s = a +:+ "-" +:+ b /\
    all_digits a = true /\ nonempty a = true /\
    all_digits b = true /\ nonempty b = true /\
    50 <= digits_value a.
Proof.
  split.
  - intros Hs. destruct (match_range s) as [[a b]|] eqn:Hm.
    + rewrite (word_count_schema_match _ _ _ Hm) in Hs.
      destruct (match_range_inv _ _ _ Hm) as (-> & Ha & Hna & Hb & Hnb).
      exists a, b. repeat split; try assumption.
      apply parseInt_ge_50; assumption.
    + unfold word_count_schema, regex_range_test in Hs. rewrite Hm in Hs.
      discriminate.
  - intros (a & b & -> & Ha & Hna & Hb & Hnb & H50).
    rewrite (word_count_schema_match _ a b) by (apply match_range_intro; assumption).
    apply parseInt_ge_50; assumption.
Qed.




(** X3: for a range [min-max] with [50 <= min <= max] and
    [min + max <= 2^53], the form is submitted and its word target lies
    within the range. *)
Theorem submit_word_target_within_range (s a b : string) :
  match_range s = Some (a, b) ->
  50 <= digits_value a <= digits_value b ->
  digits_value a + digits_value b <= 2 ^ 53 ->
  exists target,
    submit_word_target s = Some (Fin target) /\
    digits_value a <= target <= digits_value b.
Proof.
  intros Hm Hord Hsum.
  destruct (match_range_inv _ _ _ Hm) as (_ & Ha & Hna & Hb & Hnb).
  exists ((digits_value a + digits_value b) / 2). split.
  - unfold submit_word_target.
    rewrite (word_count_schema_match _ _ _ Hm).
    rewrite (proj2 (parseInt_ge_50 a Ha Hna)) by lia.
    rewrite (normalizeWordCount_match _ _ _ Hm).
    rewrite (parseInt_digits a Ha Hna), (parseInt_digits b Hb Hnb).
    set (x := digits_value a) in *. set (y := digits_value b) in *.
    change (2 ^ 53) with (2 ^ prec) in Hsum.
    rewrite (of_integer_exact x), (of_integer_exact y) by lia.
    unfold gt, lt, add.
    destruct (Z.ltb_spec x 50); [lia|].
    destruct (Z.ltb_spec y 50); [lia|].
    destruct (Z.ltb_spec y x); [lia|]. cbn [orb].
    assert (Hfin : of_integer (x + y) = Fin (x + y)).
    { destruct (Z.eq_dec (x + y) (2 ^ prec)) as [Heq|Hne].
      - rewrite Heq. apply of_integer_two53.
      - apply of_integer_exact. lia. }
    rewrite Hfin. cbn [Math_floor_half Math_max]. do 2 f_equal.
    apply Z.max_r. apply Z.div_le_lower_bound; lia.
  - split.
    + apply Z.div_le_lower_bound; lia.
    + apply Z.div_le_upper_bound; lia.
Qed.

Lemma submit_word_target_within_range_witness :
  exists target,
    submit_word_target "800-1000" = Some (Fin target) /\
    digits_value "800" <= target <= digits_value "1000".
Proof.
  apply (submit_word_target_within_range "800-1000" "800" "1000");
    vm_compute; first [reflexivity | split; discriminate | discriminate].
Defined.

(** X4: the optional word count of the other three forms behaves as the
    required one applied to the value, or to the default when the field is
    absent; the fallback [|| default] of [onSubmit] never replaces a
    validated value. *)
Theorem submit_optional_word_target_eq (default : string) (val : option string) :
  submit_optional_word_target default val =
    submit_word_target (match val with None => default | Some v => v end).
Proof.
  unfold submit_optional_word_target, word_count_optional_schema, submit_word_target.
  set (data := match val with None => default | Some v => v end).
  destruct (word_count_schema data) eqn:Hs; [|reflexivity].
  destruct data as [|c data']; [discriminate Hs|reflexivity].
Qed.

(** The defaults pass their own checks: an absent word count gives the
    targets 175, 300 and 400. *)
Example optional_word_count_defaults :
  submit_optional_word_target SOCIAL_MEDIA_WORD_COUNT None = Some (Fin 175) /\
  submit_optional_word_target LINKEDIN_WORD_COUNT None = Some (Fin 300) /\
  submit_optional_word_target JOB_APPLICATION_WORD_COUNT None = Some (Fin 400).
Proof. repeat split; reflexivity. Qed.

(** ** What [trim] and [toLowerCase] leave behind *)

Lemma is_upper_lower_char (c : ascii) : is_upper (lower_char c) = false.
Proof. each_char c. Qed.

Lemma string_forall_trimStart (P : ascii -> bool) (s : string) :
  string_forall P s = true -> string_forall P (trimStart s) = true.
Proof.
  induction s as [|c s IH]; simpl; [trivial|].
  intros [Hc Hs]%andb_prop.
  destruct (is_white_space c); [auto|]. simpl. rewrite Hc, Hs. reflexivity.
Qed.

Lemma string_forall_trimEnd (P : ascii -> bool) (s : string) :
  string_forall P s = true -> string_forall P (trimEnd s) = true.
Proof.
  induction s as [|c s IH]; simpl; [trivial|].
  intros [Hc Hs]%andb_prop. specialize (IH Hs).
  destruct (trimEnd s) as [|d t].
  - destruct (is_white_space c); simpl; [reflexivity|]. rewrite Hc. reflexivity.
  - cbn [string_forall] in *. rewrite Hc, IH. reflexivity.
Qed.

Lemma trimEnd_ends_clean (s : string) : ends_clean (trimEnd s).
Proof.
  induction s as [|c s IH]; simpl; [exact I|].
  destruct (trimEnd s) as [|d t].
  - destruct (is_white_space c) eqn:Hc; simpl; [exact I|exact Hc].
  - exact IH.
Qed.

(** [trimStart] and [trimEnd] take away white space only. *)
Lemma trimStart_decompose (s : string) :
  exists pre, s = pre +:+ trimStart s /\ string_forall is_white_space pre = true.
Proof.
  induction s as [|c s (pre & IH & Hpre)]; simpl.
  - exists EmptyString. split; reflexivity.
  - destruct (is_white_space c) eqn:Hc.
    + exists (String c pre). rewrite append_cons, <- IH. simpl.
      rewrite Hc, Hpre. split; reflexivity.
    + exists EmptyString. split; reflexivity.
Qed.

Lemma trimEnd_decompose (s : string) :
  exists post, s = trimEnd s +:+ post /\ string_forall is_white_space post = true.
Proof.
  induction s as [|c s (post & IH & Hpost)]; simpl.
  - exists EmptyString. split; reflexivity.
  - destruct (trimEnd s) as [|d t].
    + change (s = post) in IH. subst s.
      destruct (is_white_space c) eqn:Hc.
      * exists (String c post). split; [reflexivity|].
        simpl. rewrite Hc, Hpost. reflexivity.
      * exists post. split; [reflexivity|assumption].
    + exists post. rewrite append_cons, <- IH. split; [reflexivity|assumption].
Qed.

(** X5: the result of [normalizeTone] holds no upper-case letter and
    neither starts nor ends with white space. *)
Theorem normalizeTone_normal_form (tone : string) :
  string_forall (fun c => negb (is_upper c)) (normalizeTone tone) = true /\
  starts_clean (normalizeTone tone) /\
  ends_clean (normalizeTone tone).
Proof.
  unfold normalizeTone, trim. repeat split.
  - apply string_forall_trimEnd, string_forall_trimStart.
    induction tone as [|c tone IH]; simpl; [reflexivity|].
    rewrite is_upper_lower_char, IH. reflexivity.
  - apply trimEnd_starts_clean, trimStart_starts_clean.
  - apply trimEnd_ends_clean.
Qed.

(** X6: [cleanMarkdown], and so the Markdown export, removes white space
    at the two ends and nothing else: the input is the output between two
    runs of white space, and the output has clean ends. *)
Theorem cleanMarkdown_decompose (md : string) :
  exists pre post,
    md = pre +:+ cleanMarkdown md +:+ post /\
    string_forall is_white_space pre = true /\
    string_forall is_white_space post = true /\
    starts_clean (cleanMarkdown md) /\
    ends_clean (cleanMarkdown md).
Proof.
  unfold cleanMarkdown, trim.
  destruct (trimStart_decompose md) as (pre & Hpre & Hwpre).
  destruct (trimEnd_decompose (trimStart md)) as (post & Hpost & Hwpost).
  exists pre, post. repeat split; try assumption.
  - rewrite <- Hpost. exact Hpre.
  - apply trimEnd_starts_clean, trimStart_starts_clean.
  - apply trimEnd_ends_clean.
Qed.

(** ** The streaming client after a cancellation *)

Section StreamCancel.

Variable JSON_parse : string -> option json.
Variable Number_toString : spec_float -> string.

Local Abbreviation run := (Stream.run JSON_parse Number_toString).
Local Abbreviation generateContentStream :=
  (Stream.generateContentStream JSON_parse Number_toString).

(** X7: once the caller has invoked the function that
    [generateContentStream] returned, no callback is made any more,
    whatever the stream still delivers; the state stays as it was at that
    moment, closed. *)
Theorem stream_cancel_final (before after : list event) :
  callbacks (generateContentStream (before ++ Cancel :: after)).2
    = callbacks (generateContentStream before).2 /\
  closed (generateContentStream (before ++ Cancel :: after)).1 = true /\
  fullContent (generateContentStream (before ++ Cancel :: after)).1
    = fullContent (generateContentStream before).1.
Proof.
  unfold Stream.generateContentStream.
  rewrite (run_app JSON_parse Number_toString), (run_cons JSON_parse Number_toString).
  cbn [Stream.dispatch Stream.cancel fst snd].
  set (st := mkStream true _).
  destruct (run_closed JSON_parse Number_toString after st eq_refl) as [Hst Hcb].
  rewrite !callbacks_app, Hcb, Hst. cbn [callbacks List.filter is_callback app].
  rewrite app_nil_r. repeat split; reflexivity.
Qed.

End StreamCancel.

(** ** The word counter of [App] *)

(** The pieces of [split], counted: the first piece is non-empty exactly
    when the string starts with a character that is not white space, and
    the others are counted by [word_starts]. *)
Lemma split_go_count (s : string) :
  length (List.filter nonempty (split_go true s)) = word_starts true s /\
  exists piece pieces,
    split_go false s = piece :: pieces /\
    nonempty piece =
      match s with
      | String c _ => negb (is_white_space c)
      | EmptyString => false
      end /\
    length (List.filter nonempty pieces) = word_starts false s.
Proof.
  induction s as [|c s [IHrun (piece & pieces & Hsplit & Hpiece & Hcount)]].
  - split; [reflexivity|]. exists EmptyString, [].
    split; [reflexivity|]. split; reflexivity.
  - cbn [split_go word_starts]. rewrite Hsplit.
    destruct (is_white_space c) eqn:Hc.
    + split; [exact IHrun|].
      exists EmptyString, (split_go true s).
      split; [reflexivity|]. split; [reflexivity|exact IHrun].
    + split.
      * cbn [List.filter nonempty length]. rewrite Hcount. reflexivity.
      * exists (String c piece), pieces.
        split; [reflexivity|]. split; [reflexivity|exact Hcount].
Qed.

Lemma word_starts_first (s : string) :
  word_starts true s =
    ((if match s with
         | String c _ => negb (is_white_space c)
         | EmptyString => false
         end then 1 else 0) + word_starts false s)%nat.
Proof.
  destruct s as [|c s]; [reflexivity|]. simpl.
  destruct (is_white_space c); reflexivity.
Qed.

Lemma wordCount_scan (content : string) :
  wordCount content = word_starts true content.
Proof.
  unfold wordCount, split_white_space.
  destruct (split_go_count content) as (_ & piece & pieces & -> & Hpiece & Hcount).
  rewrite word_starts_first, <- Hpiece, <- Hcount.
  cbn [List.filter]. destruct (nonempty piece); reflexivity.
Qed.

(** X8: the word counter, which splits at white space, drops the empty
    pieces and takes the length, counts the places where a word begins;
    that is, the maximal runs of characters that are not white space. *)
Theorem wordCount_word_starts (content : string) :
  wordCount content = word_starts true content.
Proof. exact (wordCount_scan content). Qed.

Lemma word_starts_zero (s : string) :
  word_starts true s = O <-> string_forall is_white_space s = true.
Proof.
  induction s as [|c s IH]; simpl; [tauto|].
  destruct (is_white_space c); simpl; [exact IH|].
  split; discriminate.
Qed.

(** X9: the counter shows 0 exactly for a text that is empty or all
    white space. *)
Theorem wordCount_zero (content : string) :
  wordCount content = O <-> string_forall is_white_space content = true.
Proof. rewrite wordCount_scan. apply word_starts_zero. Qed.

Lemma word_starts_append (after_space : bool) (a b : string) (c : ascii) :
  is_white_space c = true ->
  word_starts after_space (a +:+ String c b)
    = (word_starts after_space a + word_starts true b)%nat.
Proof.
  intros Hc. revert after_space. induction a as [|x a IH]; intros after_space.
  - change (EmptyString +:+ String c b) with (String c b). simpl.
    rewrite Hc. reflexivity.
  - rewrite append_cons. simpl. destruct (is_white_space x).
    + apply IH.
    + rewrite IH. lia.
Qed.

(** X10: two texts joined by a white space character have the words of
    both: the counts add up. *)
Theorem wordCount_append (a b : string) (c : ascii) :
  is_white_space c = true ->
  wordCount (a +:+ String c b) = (wordCount a + wordCount b)%nat.
Proof.
  intros Hc. rewrite !wordCount_scan. apply word_starts_append. exact Hc.
Qed.

Lemma wordCount_append_witness :
  wordCount ("two words" +:+ String " " "and three more") = 5%nat.
Proof.
  rewrite (wordCount_append "two words" "and three more" " "%char eq_refl).
  reflexivity.
Defined.

Lemma word_starts_word (w : string) :
  string_forall (fun c => negb (is_white_space c)) w = true ->
  word_starts false w = O.
Proof.
  induction w as [|c w IH]; simpl; [reflexivity|].
  intros [Hc Hw]%andb_prop. apply negb_true_iff in Hc. rewrite Hc. auto.
Qed.

Lemma wordCount_word (w : string) : is_word w = true -> wordCount w = 1%nat.
Proof.
  unfold is_word. intros [Hn Hw]%andb_prop.
  rewrite wordCount_scan, word_starts_first, (word_starts_word w Hw).
  destruct w as [|c w]; [discriminate|].
  simpl in Hw. apply andb_prop in Hw as [Hc _]. rewrite Hc. reflexivity.
Qed.

(** X11: words joined by single spaces are counted back: the counter
    gives the number of words. *)
Theorem wordCount_join_spaces (words : list string) :
  Forall (fun w => is_word w = true) words ->
  wordCount (join_spaces words) = length words.
Proof.
  induction 1 as [|w words Hw Hwords IH]; [reflexivity|].
  destruct words as [|w' words].
  - simpl. apply wordCount_word. exact Hw.
  - change (join_spaces (w :: w' :: words))
      with (w +:+ String " " (join_spaces (w' :: words))).
    rewrite wordCount_scan, (word_starts_append true w _ " "%char eq_refl).
    rewrite <- !wordCount_scan, IH, (wordCount_word w Hw). reflexivity.
Qed.

Lemma wordCount_join_spaces_witness :
  wordCount (join_spaces ["Introduction"; "to"; "Machine"; "Learning"]) = 4%nat.
Proof.
  apply (wordCount_join_spaces ["Introduction"; "to"; "Machine"; "Learning"]).
  repeat (apply List.Forall_cons; [reflexivity|]). apply List.Forall_nil.
Defined.

(** ** The plain-text export *)

Lemma replace_stars_no_star (s : string) :
  string_forall (fun c => negb (is_star c)) (replace_stars s) = true.
Proof.
  induction s as [|c s IH]; simpl; [reflexivity|].
  destruct (is_star c) eqn:Hc; [exact IH|]. simpl. rewrite Hc, IH. reflexivity.
Qed.

Lemma replace_stars_cons (c : ascii) (s : string) :
  replace_stars (String c s) =
    if is_star c then replace_stars s else String c (replace_stars s).
Proof. reflexivity. Qed.

(** Taking out the pairs of asterisks first does not change what is left
    when all asterisks are taken out. *)
Lemma replace_stars_pairs (s : string) :
  replace_stars (replace_star_pairs s) = replace_stars s /\
  forall c, replace_stars (replace_star_pairs (String c s)) = replace_stars (String c s).
Proof.
  induction s as [|d s [IH IHc]].
  - split; [reflexivity|]. intros c. reflexivity.
  - split; [apply IHc|]. intros c.
    change (replace_star_pairs (String c (String d s)))
      with (if is_star c && is_star d then replace_star_pairs s
            else String c (replace_star_pairs (String d s))).
    rewrite (replace_stars_cons c (String d s)).
    destruct (is_star c) eqn:Hc; destruct (is_star d) eqn:Hd; cbn [andb];
      rewrite ?replace_stars_cons, ?Hc, ?IHc, ?IH, ?replace_stars_cons, ?Hd;
      reflexivity.
Qed.

Lemma length_replace_stars (s : string) :
  (String.length (replace_stars s) <= String.length s)%nat.
Proof.
  induction s as [|c s IH]; simpl; [lia|].
  destruct (is_star c); simpl; lia.
Qed.

Lemma length_replace_headings (skip : nat) (s : string) :
  (String.length (replace_headings skip s) <= String.length s)%nat.
Proof.
  revert skip. induction s as [|c s IH]; intros skip; [simpl; lia|].
  cbn [replace_headings]. destruct skip as [|k].
  - destruct (heading_match (String c s)) as [[|n]|].
    + specialize (IH O). simpl. lia.
    + specialize (IH n). simpl. lia.
    + specialize (IH O). simpl. lia.
  - specialize (IH k). simpl. lia.
Qed.

(** X12: the exported plain text holds no asterisk; the pass that removes
    the pairs [**] is subsumed by the pass that removes single asterisks,
    so the text is the content without its heading markers and without
    any asterisk; and it is never longer than the content. *)
Theorem exportToPlainText_no_asterisk (content : string) :
  string_forall (fun c => negb (is_star c)) (exportToPlainText_text content) = true /\
  exportToPlainText_text content = replace_stars (replace_headings O content) /\
  (String.length (exportToPlainText_text content) <= String.length content)%nat.
Proof.
  unfold exportToPlainText_text.
  rewrite (proj1 (replace_stars_pairs (replace_headings O content))).
  split; [apply replace_stars_no_star|]. split; [reflexivity|].
  pose proof (length_replace_stars (replace_headings O content)).
  pose proof (length_replace_headings O content). lia.
Qed.

Lemma replace_headings_plain (s : string) :
  string_forall (fun c => negb (is_hash c)) s = true -> replace_headings O s = s.
Proof.
  induction s as [|c s IH]; [reflexivity|]. simpl string_forall.
  intros [Hc Hs]%andb_prop. apply negb_true_iff in Hc.
  cbn [replace_headings]. unfold heading_match. cbn [count_prefix].
  rewrite Hc. cbn [Nat.leb andb]. rewrite (IH Hs). reflexivity.
Qed.

Lemma replace_star_pairs_plain (s : string) :
  string_forall (fun c => negb (is_star c)) s = true -> replace_star_pairs s = s.
Proof.
  induction s as [|c s IH]; [reflexivity|]. simpl string_forall.
  intros [Hc Hs]%andb_prop. apply negb_true_iff in Hc.
  cbn [replace_star_pairs]. destruct s as [|d s]; [reflexivity|].
  rewrite Hc. cbn [andb]. rewrite (IH Hs). reflexivity.
Qed.

Lemma replace_stars_plain (s : string) :
  string_forall (fun c => negb (is_star c)) s = true -> replace_stars s = s.
Proof.
  induction s as [|c s IH]; [reflexivity|]. simpl.
  intros [Hc Hs]%andb_prop. apply negb_true_iff in Hc.
  rewrite Hc, (IH Hs). reflexivity.
Qed.

Lemma string_forall_and (P Q : ascii -> bool) (s : string) :
  string_forall (fun c => P c && Q c) s = true ->
  string_forall P s = true /\ string_forall Q s = true.
Proof.
  induction s as [|c s IH]; simpl; [auto|].
  intros [[Hp Hq]%andb_prop Hs]%andb_prop. destruct (IH Hs) as [-> ->].
  rewrite Hp, Hq. auto.
Qed.

(** X13: a content with no hash and no asterisk in it is exported as it
    is. *)
Theorem exportToPlainText_plain (content : string) :
  string_forall (fun c => negb (is_hash c) && negb (is_star c)) content = true ->
  exportToPlainText_text content = content.
Proof.
  intros [Hhash Hstar]%string_forall_and. unfold exportToPlainText_text.
  rewrite (replace_headings_plain content Hhash).
  rewrite (replace_star_pairs_plain content Hstar).
  apply replace_stars_plain. exact Hstar.
Qed.

Lemma exportToPlainText_plain_witness :
  exportToPlainText_text "Dear team, the launch moves to May 3."
    = "Dear team, the launch moves to May 3.".
Proof. apply exportToPlainText_plain. reflexivity. Defined.

(** ** One submission of the blog post form *)

Lemma or_string_nonempty (a : option string) (b : string) :
  b <> EmptyString -> or_string a b <> EmptyString.
Proof. destruct a as [[|c s]|]; simpl; [trivial|discriminate|trivial]. Qed.

Lemma or_string_some (s b : string) :
  s <> EmptyString -> or_string (Some s) b = s.
Proof. destruct s; [congruence|reflexivity]. Qed.

(** X14: when the request is rejected, the form makes the three calls
    [onGenerateStart], the post, and [onError], never [onGenerate]; the
    message it reports is never empty, and it is the [detail] of the
    server's answer whenever there is a non-empty one. *)
Theorem onSubmit_rejected (data : BlogPostFormData) (outcome : Forms.post_outcome) :
  (forall response, outcome <> Forms.Resolved response) ->
  exists request message,
    Forms.onSubmit data outcome =
      [Forms.onGenerateStart; Forms.apiClient_post request; Forms.onError message] /\
    message <> EmptyString /\
    (forall detail m,
       outcome = Forms.RejectedAxios (Some detail) m ->
       detail <> EmptyString -> message = detail).
Proof.
  intros Hrej. unfold Forms.onSubmit.
  assert (Hdefault : "Failed to generate content" <> EmptyString) by discriminate.
  destruct outcome as [response|detail message|message];
    [exfalso; exact (Hrej response eq_refl)| |]; cbn [Forms.generateContent].
  - eexists _, _. split; [reflexivity|]. split.
    + apply or_string_nonempty. exact Hdefault.
    + intros d m [= -> ->] Hd.
      rewrite (or_string_some d _ Hd). apply or_string_some. exact Hd.
  - eexists _, _. split; [reflexivity|]. split.
    + apply or_string_nonempty. exact Hdefault.
    + intros d m [=].
Qed.

Lemma onSubmit_rejected_witness :
  exists request message,
    Forms.onSubmit
      (mkBlogPostFormData "Rocq" "students" "100-300" "casual" false "beginner")
      (Forms.RejectedAxios (Some "Rate limit exceeded") "Request failed")
    = [Forms.onGenerateStart; Forms.apiClient_post request; Forms.onError message] /\
    message = "Rate limit exceeded".
Proof.
  destruct (onSubmit_rejected
              (mkBlogPostFormData "Rocq" "students" "100-300" "casual" false "beginner")
              (Forms.RejectedAxios (Some "Rate limit exceeded") "Request failed"))
    as (request & message & Hcalls & _ & Hdetail); [discriminate|].
  exists request, message. split; [exact Hcalls|].
  apply (Hdetail _ _ eq_refl). discriminate.
Defined.

(** What [blogPostSchema] guarantees of the data it lets through. *)
Lemma z_enum_In (values : list string) (v : option json) (s : string) :
  z_enum values v = Some s -> In s values.
Proof.
  unfold z_enum. destruct (z_string v) as [t|]; [|discriminate].
  destruct (existsb (String.eqb t) values) eqn:Hex; [|discriminate].
  intros [= <-]. apply existsb_exists in Hex as (u & Hin & Heq).
  apply String.eqb_eq in Heq. subst. exact Hin.
Qed.

Lemma blogPostSchema_inv (values : BlogPostValues) (data : BlogPostFormData) :
  blogPostSchema values = Some data ->
  length_between 3 200 (topic data) = true /\
  length_between 3 100 (target_audience data) = true /\
  word_count_schema (word_count data) = true /\
  In (tone data) TONES /\
  In (expertise_level data) EXPERTISE_LEVELS.
Proof.
  unfold blogPostSchema.
  destruct (z_string (raw_topic values)) as [t|]; [|discriminate].
  destruct (z_string (raw_target_audience values)) as [a|]; [|discriminate].
  destruct (z_string (raw_word_count values)) as [w|]; [|discriminate].
  destruct (z_enum TONES (raw_tone values)) as [tn|] eqn:Htone; [|discriminate].
  cbv zeta.
  destruct (match raw_seo_focus values with
            | None => Some false
            | Some (JBool b) => Some b
            | Some _ => None
            end) as [seo|]; [|discriminate].
  destruct (match raw_expertise_level values with
            | None => Some "beginner"
            | Some v => z_enum EXPERTISE_LEVELS (Some v)
            end) as [e|] eqn:Hexp; [|discriminate].
  destruct (length_between 3 200 t) eqn:Ht; [|discriminate].
  destruct (length_between 3 100 a) eqn:Ha; [|discriminate].
  destruct (word_count_schema w) eqn:Hw; [|discriminate].
  intros [= <-]. cbn [topic target_audience word_count tone expertise_level].
  split; [exact Ht|]. split; [exact Ha|]. split; [exact Hw|]. split.
  - exact (z_enum_In _ _ _ Htone).
  - destruct (raw_expertise_level values) as [v|].
    + exact (z_enum_In _ _ _ Hexp).
    + injection Hexp as <-. left. reflexivity.
Qed.

Lemma normalizeWordCount_floor (s : string) :
  (exists z, normalizeWordCount s = Fin z /\ 50 <= z) \/
  normalizeWordCount s = Infinity.
Proof.
  assert (Hfifty : exists z, Fin 50 = Fin z /\ 50 <= z)
    by (exists 50; split; [reflexivity|lia]).
  destruct (match_range s) as [[a b]|] eqn:Hm.
  - rewrite (normalizeWordCount_match _ _ _ Hm).
    destruct (match_range_inv _ _ _ Hm) as (_ & Ha & Hna & Hb & Hnb).
    rewrite (parseInt_digits a Ha Hna), (parseInt_digits b Hb Hnb).
    destruct (_ || _); [left; assumption|].
    apply Math_max_50.
    destruct (of_integer_cases (digits_value a)) as [[x ->]| ->];
      destruct (of_integer_cases (digits_value b)) as [[y ->]| ->];
      cbn [add Math_floor_half]; try discriminate.
    destruct (of_integer_cases (x + y)) as [[m ->]| ->]; discriminate.
  - unfold normalizeWordCount. rewrite Hm. left; assumption.
Qed.

(** X15: every request that the blog post form posts was validated: its
    tone and expertise level are values of their enumerations, its topic
    has 3 to 200 characters and its audience 3 to 100, and its word target
    is a number that is at least 50. *)
Theorem handleSubmit_request_valid
    (values : BlogPostValues) (outcome : Forms.post_outcome)
    (request : Forms.GenerateRequest) :
  In (Forms.apiClient_post request) (Forms.handleSubmit values outcome) ->
  Forms.content_type request = "blog_post" /\
  In (Forms.context_tone request) TONES /\
  In (Forms.expertise request) EXPERTISE_LEVELS /\
  (3 <= String.length (Forms.context_topic request) <= 200)%nat /\
  (3 <= String.length (Forms.context_audience request) <= 100)%nat /\
  ((exists z, Forms.word_target request = Fin z /\ 50 <= z) \/
   Forms.word_target request = Infinity).
Proof.
  unfold Forms.handleSubmit.
  destruct (blogPostSchema values) as [data|] eqn:Hschema; [|intros []].
  destruct (blogPostSchema_inv _ _ Hschema) as (Ht & Ha & _ & Htone & Hexp).
  unfold Forms.onSubmit. intros [Hin|[Hin|Hin]]; [discriminate Hin| |].
  - injection Hin as <-.
    cbn [Forms.content_type Forms.context_tone Forms.expertise
         Forms.context_topic Forms.context_audience Forms.word_target].
    unfold length_between in Ht, Ha.
    apply andb_prop in Ht as [Ht1 Ht2]. apply andb_prop in Ha as [Ha1 Ha2].
    apply Nat.leb_le in Ht1, Ht2, Ha1, Ha2.
    repeat split; try assumption. apply normalizeWordCount_floor.
  - destruct (Forms.generateContent outcome); destruct Hin as [Hin|[]];
      discriminate Hin.
Qed.

Lemma handleSubmit_request_valid_witness :
  In "engaging" TONES /\
  (3 <= String.length "Introduction to Machine Learning" <= 200)%nat.
Proof.
  destruct (handleSubmit_request_valid
    (mkBlogPostValues (Some (JString "Introduction to Machine Learning"))
                      (Some (JString "students")) (Some (JString "100-300"))
                      (Some (JString "engaging")) None None)
    (Forms.RejectedOther "Network Error")
    (Forms.mkRequest "blog_post" "Introduction to Machine Learning" "students"
                     "engaging" (Fin 200) false "beginner"))
    as (_ & Htone & _ & Htopic & _).
  - right. left. reflexivity.
  - split; [exact Htone|exact Htopic].
Defined.

(** X16: what a submission leaves in [App]. With a validation error
    nothing changes. Otherwise the app is no longer generating when the
    request has settled: on success it shows the generated content in the
    editor tab; on failure the content is empty (the start of the
    generation cleared the earlier draft) and the status line is
    ["Error: "] followed by a non-empty message. *)
Theorem app_after_submit
    (values : BlogPostValues) (outcome : Forms.post_outcome) (st : Forms.app_state) :
  (blogPostSchema values = None ->
   Forms.app_run (Forms.handleSubmit values outcome) st = st) /\
  (blogPostSchema values <> None ->
   let st' := Forms.app_run (Forms.handleSubmit values outcome) st in
   Forms.isGenerating st' = false /\
   match outcome with
   | Forms.Resolved response =>
       Forms.app_content st' = Forms.content response /\
       Forms.draftStatus st' = "Draft Optimized" /\
       Forms.activeTab st' = Forms.editor
   | _ =>
       Forms.app_content st' = "" /\
       Forms.activeTab st' = Forms.activeTab st /\
       exists message,
         message <> EmptyString /\
         Forms.draftStatus st' = "Error: " +:+ message
   end).
Proof.
  unfold Forms.handleSubmit. split.
  - intros ->. reflexivity.
  - destruct (blogPostSchema values) as [data|]; [intros _|congruence].
    assert (Hdefault : "Failed to generate content" <> EmptyString) by discriminate.
    unfold Forms.onSubmit.
    destruct outcome as [response|detail message|message];
      cbn [Forms.generateContent Forms.app_run fold_left Forms.app_handle
           Forms.handleGenerationStart Forms.handleContentGenerated
           Forms.handleGenerationError Forms.isGenerating Forms.app_content
           Forms.draftStatus Forms.activeTab].
    + repeat split; reflexivity.
    + split; [reflexivity|]. split; [reflexivity|]. split; [reflexivity|].
      eexists. split; [|reflexivity]. apply or_string_nonempty. exact Hdefault.
    + split; [reflexivity|]. split; [reflexivity|]. split; [reflexivity|].
      eexists. split; [|reflexivity]. apply or_string_nonempty. exact Hdefault.
Qed.

Lemma app_after_submit_witness :
  Forms.app_content
    (Forms.app_run
       (Forms.handleSubmit
          (mkBlogPostValues (Some (JString "Introduction to Machine Learning"))
                            (Some (JString "students")) (Some (JString "100-300"))
                            (Some (JString "engaging")) None None)
          (Forms.RejectedOther "Network Error"))
       (Forms.mkApp false "an earlier draft" "Draft Optimized" Forms.preview))
  = "".
Proof.
  destruct (app_after_submit
    (mkBlogPostValues (Some (JString "Introduction to Machine Learning"))
                      (Some (JString "students")) (Some (JString "100-300"))
                      (Some (JString "engaging")) None None)
    (Forms.RejectedOther "Network Error")
    (Forms.mkApp false "an earlier draft" "Draft Optimized" Forms.preview))
    as [_ Hsubmitted].
  destruct Hsubmitted as (_ & Hcontent & _); [discriminate|exact Hcontent].
Defined.

(** ** The request of the social media form *)

(** X17: every request that the social media form posts has a goal that
    is not empty, a hashtag count that is neither zero nor above 20 (a
    validated count of 0 is sent as 3), a tone of the enumeration, and a
    word target that is at least 50. *)
Theorem social_media_request_valid
    (values : SocialMedia.SocialMediaValues) (request : SocialMedia.GenerateRequest) :
  SocialMedia.submitted_request values = Some request ->
  SocialMedia.context_goal request <> EmptyString /\
  truthy (JNumber (SocialMedia.spec_hashtag_count request)) = true /\
  SFltb SocialMedia.twenty (SocialMedia.spec_hashtag_count request) = false /\
  In (SocialMedia.context_tone request) TONES /\
  ((exists z, SocialMedia.word_target request = Fin z /\ 50 <= z) \/
   SocialMedia.word_target request = Infinity).
Proof.
  unfold SocialMedia.submitted_request, SocialMedia.socialMediaSchema. cbv zeta.
  destruct (z_string (SocialMedia.raw_platform values)) as [p|]; [|discriminate].
  destruct (z_string (SocialMedia.raw_topic values)) as [t|]; [|discriminate].
  destruct (z_enum TONES (SocialMedia.raw_tone values)) as [tn|] eqn:Htone;
    [|discriminate].
  destruct (match SocialMedia.raw_goal values with
            | None => Some None
            | Some (JString g) =>
                if (String.length g <=? 200)%nat then Some (Some g) else None
            | Some _ => None
            end) as [g|]; [|discriminate].
  destruct (SocialMedia.hashtag_count_schema (SocialMedia.raw_hashtag_count values))
    as [h|] eqn:Hh; [|discriminate].
  destruct (match SocialMedia.raw_word_count values with
            | None => word_count_optional_schema SOCIAL_MEDIA_WORD_COUNT None
            | Some (JString w) =>
                word_count_optional_schema SOCIAL_MEDIA_WORD_COUNT (Some w)
            | Some _ => None
            end) as [w|]; [|discriminate].
  destruct (length_between 2 50 p && length_between 3 500 t); [|discriminate].
  intros [= <-]. unfold SocialMedia.request_of.
  cbn [SocialMedia.context_goal SocialMedia.spec_hashtag_count
       SocialMedia.context_tone SocialMedia.word_target SocialMedia.goal
       SocialMedia.hashtag_count SocialMedia.tone SocialMedia.word_count].
  split; [apply or_string_nonempty; discriminate|].
  assert (Hmax : SFltb SocialMedia.twenty h = false).
  { unfold SocialMedia.hashtag_count_schema in Hh.
    destruct (SocialMedia.z_number _) as [x|]; [|discriminate].
    destruct (negb (SFltb x SocialMedia.zero)
              && negb (SFltb SocialMedia.twenty x)) eqn:Hb; [|discriminate].
    injection Hh as <-. apply andb_prop in Hb as [_ Hb].
    apply negb_true_iff. exact Hb. }
  split; [|split; [|split; [exact (z_enum_In _ _ _ Htone)|apply normalizeWordCount_floor]]].
  - destruct (truthy (JNumber h)) eqn:Ht; [exact Ht|reflexivity].
  - destruct (truthy (JNumber h)); [exact Hmax|reflexivity].
Qed.

(** A count of 0 is accepted, and 3 is sent. *)
Lemma social_media_request_valid_witness :
  exists request,
    SocialMedia.submitted_request
      (SocialMedia.mkValues (Some (JString "twitter")) (Some (JString "Launch day"))
         (Some (JString "engaging")) (Some (JString ""))
         (Some (JNumber SocialMedia.zero)) None) = Some request /\
    SocialMedia.spec_hashtag_count request = SocialMedia.three /\
    SocialMedia.context_goal request = "Engage audience" /\
    truthy (JNumber (SocialMedia.spec_hashtag_count request)) = true.
Proof.
  eexists. split; [reflexivity|]. split; [reflexivity|]. split; [reflexivity|].
  eapply (social_media_request_valid
            (SocialMedia.mkValues (Some (JString "twitter"))
               (Some (JString "Launch day")) (Some (JString "engaging"))
               (Some (JString "")) (Some (JNumber SocialMedia.zero)) None)).
  reflexivity.
Defined.
